(** * populate_db.py: loading three shipment spreadsheets into SQLite

    A shallow embedding of [src/data/populate_db.py] and the properties of
    its specification.

    Modelling decisions.
    - The three DataFrames are the inputs: lists of rows in file order, with
      the columns of the CSV headers.  A missing cell (pandas' NaN, which the
      sqlite3 driver binds as NULL) is [None].  Name columns hold text.  A
      shipment identifier column is an integer column, which pandas hands
      over as Python integers: it has no empty cell, and its values fit the
      dtype int64 or the dtype uint64 (see [integer_column]).  A column that
      pandas reads as floats or as strings is outside the model.
    - The schema of [setup_database] is the record type [db]: the three entity
      tables with their AUTOINCREMENT counters, Shipments and
      ShipmentLineItems.  The constraints of the schema (NOT NULL, UNIQUE,
      PRIMARY KEY, FOREIGN KEY) are part of the meaning of the INSERT
      statements below.
    - A connection holds the last committed contents of the file, the
      contents as seen inside the open transaction, and the per-connection
      foreign_keys pragma, which SQLite leaves off on a new connection.
    - Code that talks to the connection and prints lives in a state monad
      with exceptions; the state survives a raise, so that a handler can roll
      the transaction back.
    - The sqlite3 driver refuses to bind a Python integer outside the signed
      64-bit range: [cursor.execute] raises OverflowError before the
      statement runs.  The rowids that SQLite generates are unbounded in the
      model; the exhaustion of the 64-bit rowid space is outside it.
    - A table scan returns rows in rowid order, which is the order of the
      PRIMARY KEY of each of the five tables. *)

From Stdlib Require Import ZArith List String Bool Lia Sorted.
Import ListNotations.
Local Open Scope Z_scope.

(** ** pandas *)

Module Pandas.

(** shipping_data_0.csv *)
Record row0 := mk_row0 {
  origin_warehouse0 : option string;
  destination_store0 : option string;
  product0 : option string;
  on_time0 : option string;
  product_quantity0 : option Z;
  driver_identifier0 : option string
}.

(** shipping_data_1.csv *)
Record row1 := mk_row1 {
  shipment_identifier1 : Z;
  product1 : option string;
  on_time1 : option string
}.

(** shipping_data_2.csv *)
Record row2 := mk_row2 {
  shipment_identifier2 : Z;
  origin_warehouse2 : option string;
  destination_store2 : option string;
  driver_identifier2 : option string
}.

(** Equality of cells as [unique] and [drop_duplicates] see it: two missing
    cells are the same value. *)
Definition cell_eqb {A} (eqb : A -> A -> bool) (x y : option A) : bool :=
  match x, y with
  | Some a, Some b => eqb a b
  | None, None => true
  | _, _ => false
  end.

(** [DataFrame.drop_duplicates(subset=[key])], keep='first'. *)
Fixpoint drop_duplicates {A K} (key : A -> K) (eqb : K -> K -> bool)
    (l : list A) : list A :=
  match l with
  | [] => []
  | x :: t =>
      x :: filter (fun y => negb (eqb (key x) (key y)))
                  (drop_duplicates key eqb t)
  end.

(** [Series.unique()]: the values in order of first appearance. *)
Definition unique (l : list (option string)) : list (option string) :=
  drop_duplicates (fun x => x) (cell_eqb String.eqb) l.

End Pandas.

(** ** SQLite *)

Module Sqlite.

Inductive exn :=
| IntegrityError (msg : string)   (* sqlite3.IntegrityError *)
| OtherException (msg : string).  (* any other subclass of Exception *)

(** The OverflowError of the driver for a Python integer that is not a
    signed 64-bit integer. *)
Definition OVERFLOW : exn :=
  OtherException "Python int too large to convert to SQLite INTEGER".

Definition int64b (z : Z) : bool :=
  (- 2 ^ 63 <=? z) && (z <? 2 ^ 63).

(** The names of the three NOT NULL UNIQUE columns, as SQLite reports them. *)
Definition Products_ProductName : string := "Products.ProductName".
Definition Locations_LocationName : string := "Locations.LocationName".
Definition Drivers_DriverIdentifier : string := "Drivers.DriverIdentifier".

(** A table scan: the rows in rowid order. *)
Fixpoint insert_on {A} (key : A -> Z) (x : A) (l : list A) : list A :=
  match l with
  | [] => [x]
  | y :: t => if key x <=? key y then x :: l else y :: insert_on key x t
  end.

Definition sort_on {A} (key : A -> Z) (l : list A) : list A :=
  fold_right (insert_on key) [] l.

(** A table (id INTEGER PRIMARY KEY AUTOINCREMENT, name TEXT NOT NULL UNIQUE)
    with its row of sqlite_sequence. *)
Record entity_table := mk_entity_table {
  et_rows : list (Z * string);
  et_seq : Z
}.

Record shipment := mk_shipment {
  ShipmentID : Z;
  OriginLocationID : Z;
  DestinationLocationID : Z;
  DriverID : Z
}.

Record line_item := mk_line_item {
  LineItemID : Z;
  li_ShipmentID : Z;
  li_ProductID : Z;
  Quantity : Z;
  OnTimeStatus : option string
}.

Record db := mk_db {
  Products : entity_table;
  Locations : entity_table;
  Drivers : entity_table;
  Shipments : list shipment;
  ShipmentLineItems : list line_item;
  ShipmentLineItems_seq : Z
}.

Definition empty_table : entity_table := mk_entity_table [] 0.

Definition empty_db : db :=
  mk_db empty_table empty_table empty_table [] [] 0.

(** The rowid SQLite gives a row inserted without one: 1 in an empty table,
    else one more than the largest rowid in use. *)
Definition new_rowid (ids : list Z) : Z :=
  match ids with
  | [] => 1
  | i :: t => fold_right Z.max i t + 1
  end.

(** With AUTOINCREMENT the rowid is also larger than every rowid the table
    ever held, which sqlite_sequence remembers. *)
Definition autoincrement_rowid (ids : list Z) (seq : Z) : Z :=
  Z.max (new_rowid ids) (seq + 1).

Definition has_name (n : string) (r : Z * string) : bool :=
  String.eqb (snd r) n.

(** SELECT id FROM t WHERE name = ?   (NULL equals nothing) *)
Definition select_id_where_name (t : entity_table) (name : option string)
    : list Z :=
  match name with
  | None => []
  | Some n => map fst (filter (has_name n) (et_rows t))
  end.

(** INSERT INTO t (name) VALUES (?): the new table and the rowid.
    [column] is the name of the name column, for the error text. *)
Definition insert_name (column : string) (t : entity_table)
    (name : option string) : exn + (entity_table * Z) :=
  match name with
  | None =>
      inl (IntegrityError
             (String.append "NOT NULL constraint failed: " column))
  | Some n =>
      if existsb (has_name n) (et_rows t)
      then inl (IntegrityError
                  (String.append "UNIQUE constraint failed: " column))
      else
        let i := autoincrement_rowid (map fst (et_rows t)) (et_seq t) in
        inr (mk_entity_table (et_rows t ++ [(i, n)]) i, i)
  end.

Definition has_id (i : Z) (t : entity_table) : bool :=
  existsb (fun r => fst r =? i) (et_rows t).

Definition has_shipment (i : Z) (d : db) : bool :=
  existsb (fun s => ShipmentID s =? i) (Shipments d).

Definition set_Shipments (d : db) (l : list shipment) : db :=
  mk_db (Products d) (Locations d) (Drivers d) l
        (ShipmentLineItems d) (ShipmentLineItems_seq d).

Definition set_ShipmentLineItems (d : db) (l : list line_item) (seq : Z)
    : db :=
  mk_db (Products d) (Locations d) (Drivers d) (Shipments d) l seq.

(** INSERT OR IGNORE INTO Shipments (ShipmentID, OriginLocationID,
    DestinationLocationID, DriverID) VALUES (?, ?, ?, ?), with the shipment
    identifier of the table-C row bound to the first parameter.  The driver
    binds it first and refuses what is not a signed 64-bit integer.
    ShipmentID is the INTEGER PRIMARY KEY: a row whose key is taken is
    skipped.  [fk] is the connection's foreign_keys pragma. *)
Definition insert_or_ignore_shipment (fk : bool) (d : db)
    (id : Z) (origin dest driver : Z) : exn + db :=
  if negb (int64b id) then inl OVERFLOW
  else if has_shipment id d then inr d
  else if fk && negb (has_id origin (Locations d) &&
                      has_id dest (Locations d) &&
                      has_id driver (Drivers d))
  then inl (IntegrityError "FOREIGN KEY constraint failed")
  else inr (set_Shipments d
              (Shipments d ++ [mk_shipment id origin dest driver])).

(** INSERT INTO ShipmentLineItems (ShipmentID, ProductID, Quantity,
    OnTimeStatus) VALUES (?, ?, ?, ?), with the shipment identifier of the
    table-B row bound to the first parameter, under the same check of the
    driver. *)
Definition insert_line_item (fk : bool) (d : db)
    (id : Z) (product quantity : Z) (status : option string)
    : exn + db :=
  if negb (int64b id) then inl OVERFLOW
  else if fk && negb (has_shipment id d && has_id product (Products d))
  then inl (IntegrityError "FOREIGN KEY constraint failed")
  else
    let i := autoincrement_rowid
               (map LineItemID (ShipmentLineItems d))
               (ShipmentLineItems_seq d) in
    inr (set_ShipmentLineItems d
           (ShipmentLineItems d ++ [mk_line_item i id product quantity status])
           i).

(** SELECT * FROM t *)
Definition select_all (t : entity_table) : list (Z * string) :=
  sort_on fst (et_rows t).

(** The two join queries of the verification printout, as nested loops:
    a scan of Shipments, or of ShipmentLineItems, and for each of its rows
    the rows of the joined tables with the key it refers to. *)
Definition names_of (i : Z) (t : entity_table) : list string :=
  map snd (filter (fun r => fst r =? i) (et_rows t)).

Definition select_shipments_joined (d : db)
    : list (Z * string * string * string) :=
  flat_map (fun s =>
    flat_map (fun ol =>
      flat_map (fun dl =>
        map (fun dr => (ShipmentID s, ol, dl, dr))
            (names_of (DriverID s) (Drivers d)))
        (names_of (DestinationLocationID s) (Locations d)))
      (names_of (OriginLocationID s) (Locations d)))
    (sort_on ShipmentID (Shipments d)).

Definition select_line_items_joined (limit : nat) (d : db)
    : list (Z * string * Z * option string) :=
  firstn limit
    (flat_map (fun li =>
       map (fun p => (li_ShipmentID li, p, Quantity li, OnTimeStatus li))
           (names_of (li_ProductID li) (Products d)))
     (sort_on LineItemID (ShipmentLineItems d))).

End Sqlite.

Import Pandas Sqlite.

(** ** Connections, standard output and the monad of the script *)

(** What the script prints.  Each constructor is one [print] call of the
    source, with the values its f-string interpolates. *)
Inductive event :=
| RemovedExistingDatabase (db_name : string)
| DatabaseSetUp (db_name : string)
| SchemaNote
| PopulatingEntities
| FinishedEntities
| PopulatingShipments
| IntegrityErrorShipment (id : Z) (path : string) (e : exn)
| UnexpectedErrorShipment (path : string) (e : exn) (id : Z)
| QuantityWarning (path : string) (id : Z) (product : option string)
    (quantity : Z)
| IntegrityErrorLineItem (id : Z) (path : string) (e : exn)
| UnexpectedErrorLineItem (path : string) (e : exn) (id : Z)
| FinishedShipments
| PopulationComplete
| VerificationHeader
| PrintedEntities (table : string) (rows : list (Z * string))
| PrintedShipments (rows : list (Z * string * string * string))
| PrintedLineItems (rows : list (Z * string * Z * option string)).

Record world := mk_world {
  foreign_keys : bool;      (* PRAGMA foreign_keys of the connection *)
  committed : db;           (* contents of the database file *)
  current : db;             (* contents seen inside the transaction *)
  stdout : list event
}.

Inductive result (A : Type) :=
| Return (a : A)
| Raise (e : exn).
Arguments Return {A} a.
Arguments Raise {A} e.

Definition M (A : Type) : Type := world -> result A * world.

Definition ret {A} (a : A) : M A := fun w => (Return a, w).

Definition bind {A B} (m : M A) (k : A -> M B) : M B :=
  fun w =>
    match m w with
    | (Return a, w') => k a w'
    | (Raise e, w') => (Raise e, w')
    end.

Notation "x <- m ;; k" := (bind m (fun x => k))
  (at level 61, m at next level, right associativity).
Notation "m ;; k" := (bind m (fun _ => k))
  (at level 61, right associativity).

(** try: body / except Exception as e: handler e *)
Definition try_except {A} (body : M A) (handler : exn -> M A) : M A :=
  fun w =>
    match body w with
    | (Return a, w') => (Return a, w')
    | (Raise e, w') => handler e w'
    end.

(** for x in l: body x *)
Fixpoint for_each {A} (l : list A) (body : A -> M unit) : M unit :=
  match l with
  | [] => ret tt
  | x :: t => body x ;; for_each t body
  end.

Definition print (e : event) : M unit :=
  fun w => (Return tt,
            mk_world (foreign_keys w) (committed w) (current w)
                     (stdout w ++ [e])).

(** A statement that changes the store, or fails and changes nothing. *)
Definition execute {A} (stmt : bool -> db -> exn + (db * A)) : M A :=
  fun w =>
    match stmt (foreign_keys w) (current w) with
    | inl e => (Raise e, w)
    | inr (d, a) =>
        (Return a, mk_world (foreign_keys w) (committed w) d (stdout w))
    end.

(** A query. *)
Definition query {A} (q : db -> A) : M A :=
  fun w => (Return (q (current w)), w).

(** conn.commit() *)
Definition commit : M unit :=
  fun w => (Return tt,
            mk_world (foreign_keys w) (current w) (current w) (stdout w)).

(** conn.rollback() *)
Definition rollback : M unit :=
  fun w => (Return tt,
            mk_world (foreign_keys w) (committed w) (committed w) (stdout w)).

(** cursor.execute("PRAGMA foreign_keys = ON;") *)
Definition pragma_foreign_keys_on : M unit :=
  fun w => (Return tt,
            mk_world true (committed w) (current w) (stdout w)).

(** sqlite3.connect(db_name), with the pragma off.  [None] is the file that
    the call creates for [setup_database], which gives it the five tables
    before anything reads it: the script connects to a file only after
    [setup_database] has run on it. *)
Definition connect (file : option db) (out : list event) : world :=
  let d := match file with Some d => d | None => empty_db end in
  mk_world false d d out.

(** conn.close(): what was not committed is lost. *)
Definition close (w : world) : db := committed w.

Definition fetchone {A} (rows : list A) : option A := hd_error rows.

(** The three entity tables and their statements. *)
Definition set_Products (d : db) (t : entity_table) : db :=
  mk_db t (Locations d) (Drivers d) (Shipments d)
        (ShipmentLineItems d) (ShipmentLineItems_seq d).
Definition set_Locations (d : db) (t : entity_table) : db :=
  mk_db (Products d) t (Drivers d) (Shipments d)
        (ShipmentLineItems d) (ShipmentLineItems_seq d).
Definition set_Drivers (d : db) (t : entity_table) : db :=
  mk_db (Products d) (Locations d) t (Shipments d)
        (ShipmentLineItems d) (ShipmentLineItems_seq d).

Definition insert_into (column : string) (get : db -> entity_table)
    (set : db -> entity_table -> db) (name : option string)
    (fk : bool) (d : db) : exn + (db * Z) :=
  match insert_name column (get d) name with
  | inl e => inl e
  | inr (t, i) => inr (set d t, i)
  end.

(** ** The script *)

Definition DATABASE_NAME : string := "simplified_walmart_shipments.db".
Definition SPREADSHEET0_PATH : string := "shipping_data_0.csv".
Definition SPREADSHEET1_PATH : string := "shipping_data_1.csv".
Definition SPREADSHEET2_PATH : string := "shipping_data_2.csv".

(** [setup_database]: the CREATE TABLE IF NOT EXISTS statements leave a
    store that has the tables as it is, and a new file gets them empty,
    which is what [connect] starts from. *)
Definition setup_database (db_name : string) (file : option db)
    (out : list event) : db * list event :=
  let w := connect file out in
  match (pragma_foreign_keys_on ;; commit) w with
  | (_, w') =>
      (close w', stdout w' ++ [DatabaseSetUp db_name; SchemaNote])
  end.

Definition get_or_insert_product (product_name : option string) : M Z :=
  rows <- query (fun d => select_id_where_name (Products d) product_name) ;;
  match fetchone rows with
  | Some result => ret result
  | None =>
      execute (insert_into Products_ProductName Products set_Products
                 product_name)
  end.

Definition get_or_insert_location (location_name : option string) : M Z :=
  rows <- query (fun d => select_id_where_name (Locations d) location_name) ;;
  match fetchone rows with
  | Some result => ret result
  | None =>
      execute (insert_into Locations_LocationName Locations set_Locations
                 location_name)
  end.

Definition get_or_insert_driver (driver_identifier : option string) : M Z :=
  rows <- query (fun d => select_id_where_name (Drivers d) driver_identifier) ;;
  match fetchone rows with
  | Some result => ret result
  | None =>
      execute (insert_into Drivers_DriverIdentifier Drivers set_Drivers
                 driver_identifier)
  end.

(** The body of the try statement of the Shipments loop. *)
Definition shipment_try (row_s2 : row2) : M unit :=
  let shipment_id := shipment_identifier2 row_s2 in
  origin_loc_id <- get_or_insert_location (origin_warehouse2 row_s2) ;;
  dest_loc_id <- get_or_insert_location (destination_store2 row_s2) ;;
  driver_id <- get_or_insert_driver (driver_identifier2 row_s2) ;;
  execute (fun fk d =>
    match insert_or_ignore_shipment fk d shipment_id
            origin_loc_id dest_loc_id driver_id with
    | inl e => inl e
    | inr d' => inr (d', tt)
    end) ;;
  commit.

(** One iteration of the Shipments loop. *)
Definition shipment_iteration (s2_path : string) (row_s2 : row2) : M unit :=
  try_except (shipment_try row_s2)
    (fun e =>
       match e with
       | IntegrityError _ =>
           print (IntegrityErrorShipment (shipment_identifier2 row_s2)
                    s2_path e) ;;
           rollback
       | _ =>
           print (UnexpectedErrorShipment s2_path e
                    (shipment_identifier2 row_s2)) ;;
           rollback
       end).

(** The body of the try statement of the ShipmentLineItems loop. *)
Definition line_item_try (s1_path : string) (row_s1 : row1) : M unit :=
  let shipment_id := shipment_identifier1 row_s1 in
  product_id <- get_or_insert_product (product1 row_s1) ;;
  let on_time_status := on_time1 row_s1 in
  let quantity := 1 in
  print (QuantityWarning s1_path shipment_id (product1 row_s1) quantity) ;;
  execute (fun fk d =>
    match insert_line_item fk d shipment_id product_id quantity
            on_time_status with
    | inl e => inl e
    | inr d' => inr (d', tt)
    end) ;;
  commit.

(** One iteration of the ShipmentLineItems loop. *)
Definition line_item_iteration (s1_path : string) (row_s1 : row1) : M unit :=
  try_except (line_item_try s1_path row_s1)
    (fun e =>
       match e with
       | IntegrityError _ =>
           print (IntegrityErrorLineItem (shipment_identifier1 row_s1)
                    s1_path e) ;;
           rollback
       | _ =>
           print (UnexpectedErrorLineItem s1_path e
                    (shipment_identifier1 row_s1)) ;;
           rollback
       end).

(** Step 1 of [populate_database]: the three entity tables. *)
Definition populate_entities (df0 : list row0) (df1 : list row1)
    (df2 : list row2) : M unit :=
  print PopulatingEntities ;;
  let all_products := unique (map product0 df0 ++ map product1 df1) in
  for_each all_products
    (fun product_name => get_or_insert_product product_name ;; ret tt) ;;
  commit ;;
  let all_locations :=
    unique (map origin_warehouse0 df0 ++ map destination_store0 df0 ++
            map origin_warehouse2 df2 ++ map destination_store2 df2) in
  for_each all_locations
    (fun location_name => get_or_insert_location location_name ;; ret tt) ;;
  commit ;;
  let all_drivers :=
    unique (map driver_identifier0 df0 ++ map driver_identifier2 df2) in
  for_each all_drivers
    (fun driver_identifier =>
       get_or_insert_driver driver_identifier ;; ret tt) ;;
  commit ;;
  print FinishedEntities.

(** Step 2 of [populate_database]: Shipments, then ShipmentLineItems. *)
Definition populate_shipments (s1_path s2_path : string)
    (df1 : list row1) (df2 : list row2) : M unit :=
  print PopulatingShipments ;;
  let unique_shipments_df2 :=
    drop_duplicates shipment_identifier2 Z.eqb df2 in
  for_each unique_shipments_df2 (shipment_iteration s2_path) ;;
  for_each df1 (line_item_iteration s1_path) ;;
  print FinishedShipments.

(** [populate_database], between [sqlite3.connect] and [conn.close]. *)
Definition populate_database_conn (s1_path s2_path : string)
    (df0 : list row0) (df1 : list row1) (df2 : list row2) : M unit :=
  populate_entities df0 df1 df2 ;;
  populate_shipments s1_path s2_path df1 df2.

(** The outcome of a call: how it ended, the database file it leaves and
    what it printed.  An exception that escapes leaves the file as last
    committed. *)
Record outcome := mk_outcome {
  ended : result unit;
  file_after : db;
  printed : list event
}.

Definition populate_database (file : option db) (out : list event)
    (s1_path s2_path : string)
    (df0 : list row0) (df1 : list row1) (df2 : list row2) : outcome :=
  let w := connect file out in
  match populate_database_conn s1_path s2_path df0 df1 df2 w with
  | (Return _, w') =>
      mk_outcome (Return tt) (close w') (stdout w' ++ [PopulationComplete])
  | (Raise e, w') => mk_outcome (Raise e) (close w') (stdout w')
  end.

(** The verification printout of the main block, between [connect] and
    [close]. *)
Definition verification_conn : M unit :=
  rows <- query (fun d => select_all (Products d)) ;;
  print (PrintedEntities "Products" rows) ;;
  rows <- query (fun d => select_all (Locations d)) ;;
  print (PrintedEntities "Locations" rows) ;;
  rows <- query (fun d => select_all (Drivers d)) ;;
  print (PrintedEntities "Drivers" rows) ;;
  rows <- query select_shipments_joined ;;
  print (PrintedShipments rows) ;;
  rows <- query (select_line_items_joined 10) ;;
  print (PrintedLineItems rows).

Definition verification (file : option db) (out : list event) : outcome :=
  let w := connect file (out ++ [VerificationHeader]) in
  match verification_conn w with
  | (r, w') => mk_outcome r (close w') (stdout w')
  end.

(** The main block.  [file] is the database file found at start, if any;
    the three DataFrames are what [pd.read_csv] returns. *)
Definition main (file : option db)
    (df0 : list row0) (df1 : list row1) (df2 : list row2) : outcome :=
  let '(file, out) :=
    match file with
    | Some _ => (None, [RemovedExistingDatabase DATABASE_NAME])
    | None => (None, [])
    end in
  let '(d, out) := setup_database DATABASE_NAME file out in
  let o := populate_database (Some d) out
             SPREADSHEET1_PATH SPREADSHEET2_PATH df0 df1 df2 in
  match ended o with
  | Return _ => verification (Some (file_after o)) (printed o)
  | Raise _ => o
  end.

(** ** Vocabulary of the properties *)

(** The identifier a table has for a name, as the SELECT of the resolvers
    finds it. *)
Definition lookup (t : entity_table) (n : string) : option Z :=
  fetchone (select_id_where_name t (Some n)).

(** The common shape of the three resolvers. *)
Definition get_or_insert (column : string) (get : db -> entity_table)
    (set : db -> entity_table -> db) (name : option string) : M Z :=
  rows <- query (fun d => select_id_where_name (get d) name) ;;
  match fetchone rows with
  | Some result => ret result
  | None => execute (insert_into column get set name)
  end.

Definition unique_names (t : entity_table) : Prop :=
  NoDup (map snd (et_rows t)).

(** No two rows of Products share ProductName, and likewise for
    Locations.LocationName and Drivers.DriverIdentifier. *)
Definition names_unique (d : db) : Prop :=
  unique_names (Products d) /\ unique_names (Locations d) /\
  unique_names (Drivers d).

(** A property of the store that holds of the file and inside the
    transaction. *)
Definition both (Q : db -> Prop) (w : world) : Prop :=
  Q (committed w) /\ Q (current w).

Definition preserves {A} (P : world -> Prop) (m : M A) : Prop :=
  forall w, P w -> P (snd (m w)).

Definition is_shipment_error (e : event) : bool :=
  match e with
  | IntegrityErrorShipment _ _ _ | UnexpectedErrorShipment _ _ _ => true
  | _ => false
  end.

Definition is_line_item_error (e : event) : bool :=
  match e with
  | IntegrityErrorLineItem _ _ _ | UnexpectedErrorLineItem _ _ _ => true
  | _ => false
  end.

(** The shipment identifier of the row is one the driver binds. *)
Definition storable1 (r : row1) : bool := int64b (shipment_identifier1 r).

Definition storable2 (r : row2) : bool := int64b (shipment_identifier2 r).

(** The identifiers of a column that pandas reads with an integer dtype:
    all of them fit int64, or all of them fit uint64. *)
Definition integer_column (l : list Z) : Prop :=
  Forall (fun z => - 2 ^ 63 <= z < 2 ^ 63) l \/
  Forall (fun z => 0 <= z < 2 ^ 64) l.




(** [li] is the line item that table-B row [r] asks for in store [d]. *)
Definition line_item_of (d : db) (r : row1) (li : line_item) : Prop :=
  shipment_identifier1 r = li_ShipmentID li /\
  (exists p, product1 r = Some p /\
             lookup (Products d) p = Some (li_ProductID li)) /\
  Quantity li = 1 /\
  OnTimeStatus li = on_time1 r.

(** What was printed before a call stays printed, in front of what the
    call prints, and has no influence on the call. *)
Definition prefix_stdout (o : list event) (w : world) : world :=
  mk_world (foreign_keys w) (committed w) (current w) (o ++ stdout w).

Definition output_monotone {A} (m : M A) : Prop :=
  forall o w, m (prefix_stdout o w) = (fst (m w), prefix_stdout o (snd (m w))).

(** What [main] prints before it calls [populate_database]. *)
Definition main_prelude (file : option db) : list event :=
  match file with
  | Some _ => [RemovedExistingDatabase DATABASE_NAME]
  | None => []
  end ++ [DatabaseSetUp DATABASE_NAME; SchemaNote].

(** Every line item of the store has Quantity 1. *)
Definition quantity_1 (l : list line_item) : Prop :=
  Forall (fun li => Quantity li = 1) l.

(** The line items of [d] are those of [d0] followed by new ones that all
    have Quantity 1. *)
Definition adds_quantity_1 (d0 d : db) : Prop :=
  exists new,
    ShipmentLineItems d = ShipmentLineItems d0 ++ new /\ quantity_1 new.

(** The cell holds a name, and the table has a row for it. *)
Definition known (t : entity_table) (c : option string) : Prop :=
  exists n i, c = Some n /\ lookup t n = Some i.

(** The identifier of the name in a cell, for a cell that is [known]. *)
Definition lookup_cell (t : entity_table) (c : option string) : Z :=
  match c with
  | Some n => match lookup t n with Some i => i | None => 0 end
  | None => 0
  end.

(** What an iteration of the Shipments loop does to a store that knows the
    names of the row, on a connection with the pragma off. *)
Definition store_shipment (d : db) (r : row2) : db :=
  match insert_or_ignore_shipment false d (shipment_identifier2 r)
          (lookup_cell (Locations d) (origin_warehouse2 r))
          (lookup_cell (Locations d) (destination_store2 r))
          (lookup_cell (Drivers d) (driver_identifier2 r)) with
  | inr d' => d'
  | inl _ => d
  end.

(** What that iteration prints: nothing, or the line of the generic handler
    for an identifier that the driver refuses. *)
Definition shipment_events (s2_path : string) (r : row2) : list event :=
  if storable2 r then []
  else [UnexpectedErrorShipment s2_path OVERFLOW (shipment_identifier2 r)].

(** The same for an iteration of the ShipmentLineItems loop, and what that
    iteration prints. *)
Definition store_line_item (d : db) (r : row1) : db :=
  match insert_line_item false d (shipment_identifier1 r)
          (lookup_cell (Products d) (product1 r)) 1 (on_time1 r) with
  | inr d' => d'
  | inl _ => d
  end.

Definition line_item_events (s1_path : string) (r : row1) : list event :=
  QuantityWarning s1_path (shipment_identifier1 r) (product1 r) 1 ::
  if storable1 r then []
  else [UnexpectedErrorLineItem s1_path OVERFLOW (shipment_identifier1 r)].

(** The Shipments row of a table-C row, given the Locations and Drivers
    tables. *)
Definition row_shipment (l dr : entity_table) (r : row2) : shipment :=
  mk_shipment
    (shipment_identifier2 r)
    (lookup_cell l (origin_warehouse2 r))
    (lookup_cell l (destination_store2 r))
    (lookup_cell dr (driver_identifier2 r)).

(** Step 1 has resolved the names of tables B and C in store [d]. *)
Definition names_known (d : db) (df1 : list row1) (df2 : list row2) : Prop :=
  (forall r, In r df1 -> known (Products d) (product1 r)) /\
  (forall r, In r df2 ->
     known (Locations d) (origin_warehouse2 r) /\
     known (Locations d) (destination_store2 r) /\
     known (Drivers d) (driver_identifier2 r)).

(** No name cell of the three tables is empty. *)
Definition names_present (df0 : list row0) (df1 : list row1)
    (df2 : list row2) : Prop :=
  Forall (fun c : option string => c <> None)
    ((map product0 df0 ++ map product1 df1) ++
     (map origin_warehouse0 df0 ++ map destination_store0 df0 ++
      map origin_warehouse2 df2 ++ map destination_store2 df2) ++
     (map driver_identifier0 df0 ++ map driver_identifier2 df2)).





(** The handlers of the Shipments loop are not used on the connection [w]
    that step 1 leaves: the loop is the loop of its try statements, which
    returns normally, and it prints nothing. *)
Definition shipment_handlers_unused (s2_path : string) (df2 : list row2)
    (w : world) : Prop :=
  let rows := drop_duplicates shipment_identifier2 Z.eqb df2 in
  let w1 := snd (print PopulatingShipments w) in
  for_each rows (shipment_iteration s2_path) w1 =
    for_each rows shipment_try w1 /\
  fst (for_each rows shipment_try w1) = Return tt /\
  stdout (snd (for_each rows (shipment_iteration s2_path) w1)) = stdout w1.

(** ** Example tables *)

Local Open Scope string_scope.

(** The end-to-end scenario of the specification. *)
Definition scenario_df0 : list row0 :=
  [mk_row0 (Some "WH1") (Some "ST1") (Some "Widget") (Some "Yes") (Some 5)
           (Some "D1")].
Definition scenario_df1 : list row1 :=
  [mk_row1 100 (Some "Widget") (Some "Yes")].
Definition scenario_df2 : list row2 :=
  [mk_row2 100 (Some "WH1") (Some "ST1") (Some "D1")].

(** A table B that repeats a record and has a record with identifier 2^63,
    which makes its column a uint64 column. *)
Definition repeating_df1 : list row1 :=
  [mk_row1 100 (Some "Widget") (Some "Yes");
   mk_row1 9223372036854775808 (Some "Widget") (Some "No");
   mk_row1 100 (Some "Widget") (Some "Yes")].

(** A table C that repeats identifier 100 with other names. *)
Definition duplicated_df2 : list row2 :=
  [mk_row2 100 (Some "WH1") (Some "ST1") (Some "D1");
   mk_row2 7 (Some "WH2") (Some "ST1") (Some "D2");
   mk_row2 100 (Some "WH2") (Some "ST2") (Some "D2")].

(** A table-B record without product name. *)
Definition unnamed_row1 : row1 :=
  mk_row1 100 None (Some "No").

(** A table-C row with identifier 2^63. *)
Definition oversized_row2 : row2 :=
  mk_row2 9223372036854775808 (Some "A") (Some "B") (Some "D1").

(** A table C whose first row has identifier 2^63. *)
Definition oversized_df2 : list row2 :=
  [oversized_row2; mk_row2 1 (Some "X") (Some "Y") (Some "D2")].



(** A table C whose row has an empty origin_warehouse cell. *)
Definition unlocated_df2 : list row2 :=
  [mk_row2 100 None (Some "ST1") (Some "D1")].

Local Close Scope string_scope.

(** ** Vocabulary of the further properties *)

(** The exception a NULL in a NOT NULL column raises. *)
Definition NOT_NULL (column : string) : exn :=
  IntegrityError (String.append "NOT NULL constraint failed: " column).

(** The name cells that step 1 of [populate_database] reads. *)
Definition product_cells (df0 : list row0) (df1 : list row1)
    : list (option string) :=
  map product0 df0 ++ map product1 df1.

Definition location_cells (df0 : list row0) (df2 : list row2)
    : list (option string) :=
  map origin_warehouse0 df0 ++ map destination_store0 df0 ++
  map origin_warehouse2 df2 ++ map destination_store2 df2.

Definition driver_cells (df0 : list row0) (df2 : list row2)
    : list (option string) :=
  map driver_identifier0 df0 ++ map driver_identifier2 df2.

(** The cell holds a name. *)
Definition is_present (c : option string) : bool :=
  match c with Some _ => true | None => false end.

(** The column of the first loop of step 1 that meets an empty cell. *)
Definition first_empty_column (df0 : list row0) (df1 : list row1)
    (df2 : list row2) : string :=
  if negb (forallb is_present (product_cells df0 df1))
  then Products_ProductName
  else if negb (forallb is_present (location_cells df0 df2))
  then Locations_LocationName
  else Drivers_DriverIdentifier.

(** What a loop of step 1 does to its table: how it ends, and the table as
    the transaction sees it then. *)
Fixpoint resolve_names (column : string) (t : entity_table)
    (l : list (option string)) : result unit * entity_table :=
  match l with
  | [] => (Return tt, t)
  | None :: _ => (Raise (NOT_NULL column), t)
  | Some n :: l' =>
      match lookup t n with
      | Some _ => resolve_names column t l'
      | None =>
          let i := autoincrement_rowid (map fst (et_rows t)) (et_seq t) in
          resolve_names column (mk_entity_table (et_rows t ++ [(i, n)]) i) l'
      end
  end.

(** What step 1 does to a store whose transaction is committed: how it ends
    and the store as last committed. *)
Definition entities_of (df0 : list row0) (df1 : list row1) (df2 : list row2)
    (d : db) : result unit * db :=
  match resolve_names Products_ProductName (Products d)
          (unique (product_cells df0 df1)) with
  | (Raise e, _) => (Raise e, d)
  | (Return _, tp) =>
      let d1 := set_Products d tp in
      match resolve_names Locations_LocationName (Locations d1)
              (unique (location_cells df0 df2)) with
      | (Raise e, _) => (Raise e, d1)
      | (Return _, tl) =>
          let d2 := set_Locations d1 tl in
          match resolve_names Drivers_DriverIdentifier (Drivers d2)
                  (unique (driver_cells df0 df2)) with
          | (Raise e, _) => (Raise e, d2)
          | (Return _, td) => (Return tt, set_Drivers d2 td)
          end
      end
  end.

(** What [populate_database] does to such a store. *)
Definition load_of (df0 : list row0) (df1 : list row1) (df2 : list row2)
    (d : db) : result unit * db :=
  match entities_of df0 df1 df2 d with
  | (Raise e, d1) => (Raise e, d1)
  | (Return _, d1) =>
      (Return tt,
       fold_left store_line_item df1
         (fold_left store_shipment
            (drop_duplicates shipment_identifier2 Z.eqb df2) d1))
  end.

(** The rowids [k], [k+1], ... of [n] rows. *)
Fixpoint rowids_from (k : Z) (n : nat) : list Z :=
  match n with
  | O => []
  | S m => k :: rowids_from (k + 1) m
  end.

(** Names numbered from [k] on. *)
Fixpoint enumerate (k : Z) (l : list string) : list (Z * string) :=
  match l with
  | [] => []
  | n :: t => (k, n) :: enumerate (k + 1) t
  end.

(** The table that holds the names [l], in this order, numbered from 1. *)
Definition table_of (l : list string) : entity_table :=
  mk_entity_table (enumerate 1 l) (Z.of_nat (List.length l)).

(** The names of the cells that are not empty. *)
Fixpoint present_names (l : list (option string)) : list string :=
  match l with
  | [] => []
  | Some n :: t => n :: present_names t
  | None :: t => present_names t
  end.

(** No two rows of a table share their primary key. *)
Definition keys_unique (d : db) : Prop :=
  NoDup (map fst (et_rows (Products d))) /\
  NoDup (map fst (et_rows (Locations d))) /\
  NoDup (map fst (et_rows (Drivers d))) /\
  NoDup (map ShipmentID (Shipments d)) /\
  NoDup (map LineItemID (ShipmentLineItems d)).

(** Every table of [d] is the table of [d0] with rows added at its end. *)
Definition extends (d0 d : db) : Prop :=
  (exists l, et_rows (Products d) = et_rows (Products d0) ++ l) /\
  (exists l, et_rows (Locations d) = et_rows (Locations d0) ++ l) /\
  (exists l, et_rows (Drivers d) = et_rows (Drivers d0) ++ l) /\
  (exists l, Shipments d = Shipments d0 ++ l) /\
  (exists l, ShipmentLineItems d = ShipmentLineItems d0 ++ l).

(** The foreign keys of a Shipments row and the ProductID of a line item
    are keys of rows of [d]. *)
Definition shipment_references (d : db) (s : shipment) : Prop :=
  has_id (OriginLocationID s) (Locations d) = true /\
  has_id (DestinationLocationID s) (Locations d) = true /\
  has_id (DriverID s) (Drivers d) = true.

Definition references_exist (d : db) : Prop :=
  Forall (shipment_references d) (Shipments d) /\
  Forall (fun li => has_id (li_ProductID li) (Products d) = true)
    (ShipmentLineItems d).

(** What the verification printout should show for a row of table C and for
    a row of table B. *)
Definition cell_text (c : option string) : string :=
  match c with Some s => s | None => EmptyString end.

Definition shipment_view (r : row2) : Z * string * string * string :=
  (shipment_identifier2 r, cell_text (origin_warehouse2 r),
   cell_text (destination_store2 r), cell_text (driver_identifier2 r)).

Definition line_item_view (r : row1) : Z * string * Z * option string :=
  (shipment_identifier1 r, cell_text (product1 r), 1, on_time1 r).

(** ** The resolvers *)

Lemma lookup_None (t : entity_table) (n : string) :
  lookup t n = None <-> existsb (has_name n) (et_rows t) = false.
Proof.
  unfold lookup, fetchone, select_id_where_name.
  induction (et_rows t) as [|r rows IH]; simpl.
  - tauto.
  - destruct (has_name n r); simpl.
    + split; discriminate.
    + exact IH.
Qed.

Lemma lookup_In (t : entity_table) (n : string) (i : Z) :
  lookup t n = Some i -> In (i, n) (et_rows t).
Proof.
  unfold lookup, fetchone, select_id_where_name.
  induction (et_rows t) as [|[j m] rows IH]; simpl.
  - discriminate.
  - unfold has_name at 1; simpl.
    destruct (String.eqb_spec m n) as [->|Hne]; simpl.
    + intros [= ->]. now left.
    + intros H. right. now apply IH.
Qed.

Lemma lookup_app (rows more : list (Z * string)) (s s' : Z) (n : string) :
  lookup (mk_entity_table (rows ++ more) s) n =
  match lookup (mk_entity_table rows s') n with
  | Some i => Some i
  | None => lookup (mk_entity_table more s') n
  end.
Proof.
  unfold lookup, fetchone, select_id_where_name; simpl.
  induction rows as [|r rows IH]; simpl.
  - reflexivity.
  - destruct (has_name n r); simpl; [reflexivity | exact IH].
Qed.

Lemma not_In_names (rows : list (Z * string)) (n : string) :
  existsb (has_name n) rows = false -> ~ In n (map snd rows).
Proof.
  intros H Hin. apply in_map_iff in Hin as [[i m] [Hm Hin]].
  simpl in Hm; subst m.
  assert (existsb (has_name n) rows = true) as E.
  { apply existsb_exists. exists (i, n). split; [exact Hin|].
    unfold has_name; simpl. apply String.eqb_refl. }
  congruence.
Qed.

Lemma insert_name_unique (column : string) (t t' : entity_table)
    (name : option string)
    (i : Z) :
  insert_name column t name = inr (t', i) -> unique_names t -> unique_names t'.
Proof.
  unfold insert_name, unique_names.
  destruct name as [n|]; [|discriminate].
  destruct (existsb (has_name n) (et_rows t)) eqn:E; [discriminate|].
  intros [= <- <-] Hu; simpl.
  rewrite map_app; simpl.
  apply NoDup_app; [exact Hu | repeat constructor; simpl; tauto |].
  intros x Hx [<-|[]]. now apply (not_In_names _ _ E).
Qed.

Section Resolver.

Variable column : string.
Variable get : db -> entity_table.
Variable set : db -> entity_table -> db.

Lemma get_or_insert_found (w : world) (n : string) (i : Z) :
  lookup (get (current w)) n = Some i ->
  get_or_insert column get set (Some n) w = (Return i, w).
Proof.
  unfold lookup, get_or_insert, bind, query; simpl.
  intros ->. reflexivity.
Qed.

Lemma get_or_insert_new (w : world) (n : string) :
  lookup (get (current w)) n = None ->
  let t := get (current w) in
  let i := autoincrement_rowid (map fst (et_rows t)) (et_seq t) in
  get_or_insert column get set (Some n) w =
  (Return i,
   mk_world (foreign_keys w) (committed w)
     (set (current w) (mk_entity_table (et_rows t ++ [(i, n)]) i))
     (stdout w)).
Proof.
  intros Hl. pose proof Hl as He. apply lookup_None in He.
  unfold lookup in Hl.
  unfold get_or_insert, bind, query, execute, insert_into, insert_name;
    simpl in *.
  rewrite Hl, He. reflexivity.
Qed.

Lemma get_or_insert_missing (w : world) :
  get_or_insert column get set None w = (Raise (NOT_NULL column), w).
Proof. reflexivity. Qed.

Hypothesis get_set : forall d t, get (set d t) = t.

(** Resolving a name always returns, and resolving it again returns the
    same identifier and changes nothing. *)
Lemma get_or_insert_twice (w : world) (n : string) :
  exists i w1,
    get_or_insert column get set (Some n) w = (Return i, w1) /\
    get_or_insert column get set (Some n) w1 = (Return i, w1).
Proof.
  destruct (lookup (get (current w)) n) as [i|] eqn:Hl.
  - exists i, w. split; now apply get_or_insert_found.
  - rewrite (get_or_insert_new w n Hl); cbv zeta.
    eexists; eexists; split; [reflexivity|].
    apply get_or_insert_found; simpl.
    rewrite get_set.
    rewrite (lookup_app _ _ _ (et_seq (get (current w)))).
    destruct (get (current w)) as [rows s]; simpl in *.
    rewrite Hl.
    unfold lookup, fetchone, select_id_where_name, has_name; simpl.
    now rewrite String.eqb_refl.
Qed.

End Resolver.

Lemma get_or_insert_product_eq :
  get_or_insert_product = get_or_insert
      Products_ProductName Products set_Products.
Proof. reflexivity. Qed.

Lemma get_or_insert_location_eq :
  get_or_insert_location = get_or_insert
      Locations_LocationName Locations set_Locations.
Proof. reflexivity. Qed.

Lemma get_or_insert_driver_eq :
  get_or_insert_driver = get_or_insert
      Drivers_DriverIdentifier Drivers set_Drivers.
Proof. reflexivity. Qed.

(** C1.  For every name and every state of the connection, each of the three
    resolvers returns an identifier, and a second call with the same name
    returns the same identifier and leaves the store, the file and the output
    as the first call left them: it inserts no row. *)
Theorem resolver_idempotent (w : world) (n : string) :
  (exists i w1,
     get_or_insert_product (Some n) w = (Return i, w1) /\
     get_or_insert_product (Some n) w1 = (Return i, w1)) /\
  (exists i w1,
     get_or_insert_location (Some n) w = (Return i, w1) /\
     get_or_insert_location (Some n) w1 = (Return i, w1)) /\
  (exists i w1,
     get_or_insert_driver (Some n) w = (Return i, w1) /\
     get_or_insert_driver (Some n) w1 = (Return i, w1)).
Proof.
  rewrite get_or_insert_product_eq, get_or_insert_location_eq,
    get_or_insert_driver_eq.
  repeat split; apply get_or_insert_twice; intros d t; reflexivity.
Qed.

(** ** Properties of the store that every step keeps *)

Lemma preserves_ret {A} (P : world -> Prop) (a : A) : preserves P (ret a).
Proof. intros w H. exact H. Qed.

Lemma preserves_bind {A B} (P : world -> Prop) (m : M A) (k : A -> M B) :
  preserves P m -> (forall a, preserves P (k a)) -> preserves P (bind m k).
Proof.
  intros Hm Hk w H. unfold bind.
  specialize (Hm w H). destruct (m w) as [[a|e] w']; simpl in *.
  - now apply Hk.
  - exact Hm.
Qed.

Lemma preserves_try_except {A} (P : world -> Prop) (body : M A)
    (handler : exn -> M A) :
  preserves P body -> (forall e, preserves P (handler e)) ->
  preserves P (try_except body handler).
Proof.
  intros Hb Hh w H. unfold try_except.
  specialize (Hb w H). destruct (body w) as [[a|e] w']; simpl in *.
  - exact Hb.
  - now apply Hh.
Qed.

Lemma preserves_for_each {A} (P : world -> Prop) (l : list A)
    (body : A -> M unit) :
  (forall x, preserves P (body x)) -> preserves P (for_each l body).
Proof.
  intros Hb. induction l as [|x l IH]; simpl.
  - apply preserves_ret.
  - apply preserves_bind; [apply Hb | intros _; exact IH].
Qed.

Section Both.

Variable Q : db -> Prop.

Lemma preserves_print (e : event) : preserves (both Q) (print e).
Proof. intros w H. exact H. Qed.

Lemma preserves_query {A} (q : db -> A) : preserves (both Q) (query q).
Proof. intros w H. exact H. Qed.

Lemma preserves_commit : preserves (both Q) commit.
Proof. intros w [_ H]. split; exact H. Qed.

Lemma preserves_rollback : preserves (both Q) rollback.
Proof. intros w [H _]. split; exact H. Qed.

Lemma preserves_execute {A} (stmt : bool -> db -> exn + (db * A)) :
  (forall fk d d' a, stmt fk d = inr (d', a) -> Q d -> Q d') ->
  preserves (both Q) (execute stmt).
Proof.
  intros Hs w [Hc Hq]. unfold execute.
  destruct (stmt (foreign_keys w) (current w)) as [e|[d a]] eqn:E; simpl.
  - now split.
  - split; [exact Hc | now apply (Hs _ _ _ _ E)].
Qed.

Lemma preserves_get_or_insert (column : string) (get : db -> entity_table)
    (set : db -> entity_table -> db) (name : option string) :
  (forall d t i,
     insert_name column (get d) name = inr (t, i) -> Q d -> Q (set d t)) ->
  preserves (both Q) (get_or_insert column get set name).
Proof.
  intros Hs. unfold get_or_insert.
  apply preserves_bind; [apply preserves_query|].
  intros rows. destruct (fetchone rows).
  - apply preserves_ret.
  - apply preserves_execute. intros fk d d' i. unfold insert_into.
    destruct (insert_name column (get d) name) as [e|[t j]] eqn:E;
      [discriminate|].
    intros [= <- <-]. now apply (Hs _ _ _ E).
Qed.

(** What [Q] has to survive: the five INSERT statements of the script. *)
Hypothesis Q_Products : forall d name t i,
  insert_name Products_ProductName (Products d) name = inr (t, i) ->
  Q d -> Q (set_Products d t).
Hypothesis Q_Locations : forall d name t i,
  insert_name Locations_LocationName (Locations d) name = inr (t, i) ->
  Q d -> Q (set_Locations d t).
Hypothesis Q_Drivers : forall d name t i,
  insert_name Drivers_DriverIdentifier (Drivers d) name = inr (t, i) ->
  Q d -> Q (set_Drivers d t).
Hypothesis Q_Shipments : forall fk d id o dst dr d',
  insert_or_ignore_shipment fk d id o dst dr = inr d' -> Q d -> Q d'.
Hypothesis Q_ShipmentLineItems : forall fk d id p st d',
  insert_line_item fk d id p 1 st = inr d' -> Q d -> Q d'.

Lemma preserves_get_or_insert_product (name : option string) :
  preserves (both Q) (get_or_insert_product name).
Proof.
  apply (preserves_get_or_insert Products_ProductName Products set_Products).
  intros d t i. apply Q_Products.
Qed.

Lemma preserves_get_or_insert_location (name : option string) :
  preserves (both Q) (get_or_insert_location name).
Proof.
  apply (preserves_get_or_insert
      Locations_LocationName Locations set_Locations).
  intros d t i. apply Q_Locations.
Qed.

Lemma preserves_get_or_insert_driver (name : option string) :
  preserves (both Q) (get_or_insert_driver name).
Proof.
  apply (preserves_get_or_insert Drivers_DriverIdentifier Drivers set_Drivers).
  intros d t i. apply Q_Drivers.
Qed.

Lemma preserves_shipment_iteration (s2_path : string) (r : row2) :
  preserves (both Q) (shipment_iteration s2_path r).
Proof.
  unfold shipment_iteration, shipment_try.
  apply preserves_try_except.
  - apply preserves_bind; [apply preserves_get_or_insert_location|intros o].
    apply preserves_bind; [apply preserves_get_or_insert_location|intros dst].
    apply preserves_bind; [apply preserves_get_or_insert_driver|intros dr].
    apply preserves_bind; [|intros _; apply preserves_commit].
    apply preserves_execute. intros fk d d' a.
    destruct (insert_or_ignore_shipment fk d (shipment_identifier2 r) o dst dr)
      as [e|d1] eqn:E; [discriminate|].
    intros [= <- _]. now apply (Q_Shipments _ _ _ _ _ _ _ E).
  - intros [msg|msg];
      (apply preserves_bind;
       [apply preserves_print | intros _; apply preserves_rollback]).
Qed.

Lemma preserves_line_item_iteration (s1_path : string) (r : row1) :
  preserves (both Q) (line_item_iteration s1_path r).
Proof.
  unfold line_item_iteration, line_item_try.
  apply preserves_try_except.
  - apply preserves_bind; [apply preserves_get_or_insert_product|intros p].
    apply preserves_bind; [apply preserves_print|intros _].
    apply preserves_bind; [|intros _; apply preserves_commit].
    apply preserves_execute. intros fk d d' a.
    destruct (insert_line_item fk d (shipment_identifier1 r) p 1 (on_time1 r))
      as [e|d1] eqn:E; [discriminate|].
    intros [= <- _]. now apply (Q_ShipmentLineItems _ _ _ _ _ _ E).
  - intros [msg|msg];
      (apply preserves_bind;
       [apply preserves_print | intros _; apply preserves_rollback]).
Qed.


Lemma preserves_populate_database_conn (s1_path s2_path : string)
    (df0 : list row0) (df1 : list row1) (df2 : list row2) :
  preserves (both Q) (populate_database_conn s1_path s2_path df0 df1 df2).
Proof.
  unfold populate_database_conn, populate_entities, populate_shipments.
  repeat first
    [ apply preserves_print | apply preserves_commit | apply preserves_ret
    | apply preserves_get_or_insert_product
    | apply preserves_get_or_insert_location
    | apply preserves_get_or_insert_driver
    | apply preserves_shipment_iteration
    | apply preserves_line_item_iteration
    | apply preserves_for_each; intros ?
    | apply preserves_bind; [|intros ?] ].
Qed.

(** The file a call of [populate_database] leaves satisfies [Q] when the
    file it found does. *)
Lemma populate_database_keeps (file : option db) (out : list event)
    (s1_path s2_path : string)
    (df0 : list row0) (df1 : list row1) (df2 : list row2) :
  Q (match file with Some d0 => d0 | None => empty_db end) ->
  Q (file_after (populate_database file out s1_path s2_path df0 df1 df2)).
Proof.
  intros H0. unfold populate_database.
  pose proof (preserves_populate_database_conn s1_path s2_path df0 df1 df2
                (connect file out)) as Hp.
  destruct (populate_database_conn s1_path s2_path df0 df1 df2
              (connect file out)) as [[[]|e] w'];
    simpl in *; apply Hp; split; exact H0.
Qed.

End Both.

(** ** Output *)

Lemma monotone_ret {A} (a : A) : output_monotone (ret a).
Proof. intros o w. reflexivity. Qed.

Lemma monotone_bind {A B} (m : M A) (k : A -> M B) :
  output_monotone m -> (forall a, output_monotone (k a)) ->
  output_monotone (bind m k).
Proof.
  intros Hm Hk o w. unfold bind. rewrite Hm.
  destruct (m w) as [[a|e] w']; simpl.
  - apply Hk.
  - reflexivity.
Qed.

Lemma monotone_try_except {A} (body : M A) (handler : exn -> M A) :
  output_monotone body -> (forall e, output_monotone (handler e)) ->
  output_monotone (try_except body handler).
Proof.
  intros Hb Hh o w. unfold try_except. rewrite Hb.
  destruct (body w) as [[a|e] w']; simpl.
  - reflexivity.
  - apply Hh.
Qed.

Lemma monotone_for_each {A} (l : list A) (body : A -> M unit) :
  (forall x, output_monotone (body x)) -> output_monotone (for_each l body).
Proof.
  intros Hb. induction l as [|x l IH]; simpl.
  - apply monotone_ret.
  - apply monotone_bind; [apply Hb | intros _; exact IH].
Qed.

Lemma monotone_print (e : event) : output_monotone (print e).
Proof.
  intros o w. unfold print, prefix_stdout; simpl. now rewrite app_assoc.
Qed.

Lemma monotone_query {A} (q : db -> A) : output_monotone (query q).
Proof. intros o w. reflexivity. Qed.

Lemma monotone_commit : output_monotone commit.
Proof. intros o w. reflexivity. Qed.

Lemma monotone_rollback : output_monotone rollback.
Proof. intros o w. reflexivity. Qed.

Lemma monotone_execute {A} (stmt : bool -> db -> exn + (db * A)) :
  output_monotone (execute stmt).
Proof.
  intros o w. unfold execute; simpl.
  destruct (stmt (foreign_keys w) (current w)) as [e|[d a]]; reflexivity.
Qed.

Lemma monotone_get_or_insert (column : string) (get : db -> entity_table)
    (set : db -> entity_table -> db) (name : option string) :
  output_monotone (get_or_insert column get set name).
Proof.
  unfold get_or_insert.
  apply monotone_bind; [apply monotone_query|].
  intros rows. destruct (fetchone rows);
    [apply monotone_ret | apply monotone_execute].
Qed.

Ltac monotone :=
  repeat first
    [ apply monotone_print | apply monotone_commit | apply monotone_rollback
    | apply monotone_ret | apply monotone_query | apply monotone_execute
    | apply (monotone_get_or_insert Products_ProductName Products set_Products)
    | apply (monotone_get_or_insert
        Locations_LocationName Locations set_Locations)
    | apply (monotone_get_or_insert
        Drivers_DriverIdentifier Drivers set_Drivers)
    | apply monotone_for_each; intros ?
    | apply monotone_try_except; [|intros [?|?]]
    | apply monotone_bind; [|intros ?] ].

Lemma monotone_populate_database_conn (s1_path s2_path : string)
    (df0 : list row0) (df1 : list row1) (df2 : list row2) :
  output_monotone (populate_database_conn s1_path s2_path df0 df1 df2).
Proof.
  unfold populate_database_conn, populate_entities, populate_shipments,
    shipment_iteration, shipment_try, line_item_iteration, line_item_try.
  monotone.
Qed.

(** The store [populate_database] leaves and the way it ends do not depend
    on what was printed before the call. *)
Lemma populate_database_output (file : option db) (out : list event)
    (s1_path s2_path : string)
    (df0 : list row0) (df1 : list row1) (df2 : list row2) :
  let o := populate_database file [] s1_path s2_path df0 df1 df2 in
  populate_database file out s1_path s2_path df0 df1 df2 =
  mk_outcome (ended o) (file_after o) (out ++ printed o).
Proof.
  unfold populate_database.
  replace (connect file out) with (prefix_stdout out (connect file []))
    by (unfold connect, prefix_stdout; simpl; now rewrite app_nil_r).
  rewrite monotone_populate_database_conn.
  destruct (populate_database_conn s1_path s2_path df0 df1 df2
              (connect file [])) as [[[]|e] w']; simpl.
  - now rewrite app_assoc.
  - reflexivity.
Qed.

Lemma verification_read_only (file : option db) (out : list event) :
  let d := match file with Some d => d | None => empty_db end in
  ended (verification file out) = Return tt /\
  file_after (verification file out) = d.
Proof. destruct file; split; reflexivity. Qed.

(** [main] is [populate_database] on the empty schema, followed by the
    printout when the load ran to completion. *)
Lemma main_populate_database (file : option db)
    (df0 : list row0) (df1 : list row1) (df2 : list row2) :
  let o := populate_database (Some empty_db) (main_prelude file)
             SPREADSHEET1_PATH SPREADSHEET2_PATH df0 df1 df2 in
  ended (main file df0 df1 df2) = ended o /\
  file_after (main file df0 df1 df2) = file_after o.
Proof.
  cbv zeta.
  assert (main file df0 df1 df2 =
          let o := populate_database (Some empty_db) (main_prelude file)
                     SPREADSHEET1_PATH SPREADSHEET2_PATH df0 df1 df2 in
          match ended o with
          | Return _ => verification (Some (file_after o)) (printed o)
          | Raise _ => o
          end) as ->.
  { destruct file; reflexivity. }
  cbv zeta.
  destruct (ended (populate_database (Some empty_db) (main_prelude file)
                     SPREADSHEET1_PATH SPREADSHEET2_PATH df0 df1 df2))
    as [[]|e] eqn:E.
  - split; reflexivity.
  - split; [exact E | reflexivity].
Qed.

(** ** What the two INSERT statements of step 2 leave alone *)

Lemma insert_or_ignore_shipment_frame (fk : bool) (d d' : db)
    (id : Z) (o dst dr : Z) :
  insert_or_ignore_shipment fk d id o dst dr = inr d' ->
  Products d' = Products d /\ Locations d' = Locations d /\
  Drivers d' = Drivers d /\
  ShipmentLineItems d' = ShipmentLineItems d /\
  ShipmentLineItems_seq d' = ShipmentLineItems_seq d.
Proof.
  unfold insert_or_ignore_shipment.
  destruct (negb (int64b id)); [discriminate|].
  destruct (has_shipment _ d); [intros [= <-]; tauto|].
  destruct (fk && _); [discriminate|].
  intros [= <-]. simpl. tauto.
Qed.

Lemma insert_line_item_frame (fk : bool) (d d' : db)
    (id : Z) (p q : Z) (st : option string) :
  insert_line_item fk d id p q st = inr d' ->
  Products d' = Products d /\ Locations d' = Locations d /\
  Drivers d' = Drivers d /\ Shipments d' = Shipments d /\
  exists z i,
    id = z /\
    ShipmentLineItems d' = ShipmentLineItems d ++ [mk_line_item i z p q st].
Proof.
  unfold insert_line_item.
  destruct (int64b id) eqn:E; [|discriminate]. cbn [negb].
  destruct (fk && _); [discriminate|].
  intros [= <-]. simpl. repeat split. eauto.
Qed.

(** C2.  Uniqueness of ProductName, LocationName and DriverIdentifier, in
    the file and inside the transaction, is kept by every call of a resolver,
    by every iteration of the two insertion loops and by the whole of
    [populate_database]; and the file that a full load leaves, whatever file
    it found and however it ended, has no duplicate name in the three
    columns. *)
Theorem names_stay_unique (w : world) (H : both names_unique w) :
  (forall name,
     both names_unique (snd (get_or_insert_product name w)) /\
     both names_unique (snd (get_or_insert_location name w)) /\
     both names_unique (snd (get_or_insert_driver name w))) /\
  (forall s1_path s2_path r1 r2,
     both names_unique (snd (shipment_iteration s2_path r2 w)) /\
     both names_unique (snd (line_item_iteration s1_path r1 w))) /\
  (forall s1_path s2_path df0 df1 df2,
     both names_unique
       (snd (populate_database_conn s1_path s2_path df0 df1 df2 w))) /\
  (forall file df0 df1 df2,
     names_unique (file_after (main file df0 df1 df2))).
Proof.
  assert (forall d name t i,
            insert_name Products_ProductName (Products d) name = inr (t, i) ->
            names_unique d -> names_unique (set_Products d t)) as HP.
  { intros d name t i E (Hp & Hl & Hd). repeat split; simpl; auto.
    exact (insert_name_unique _ _ _ _ _ E Hp). }
  assert (forall d name t i,
            insert_name Locations_LocationName (Locations d) name
              = inr (t, i) ->
            names_unique d -> names_unique (set_Locations d t)) as HL.
  { intros d name t i E (Hp & Hl & Hd). repeat split; simpl; auto.
    exact (insert_name_unique _ _ _ _ _ E Hl). }
  assert (forall d name t i,
            insert_name Drivers_DriverIdentifier (Drivers d) name
              = inr (t, i) ->
            names_unique d -> names_unique (set_Drivers d t)) as HD.
  { intros d name t i E (Hp & Hl & Hd). repeat split; simpl; auto.
    exact (insert_name_unique _ _ _ _ _ E Hd). }
  assert (forall fk d id o dst dr d',
            insert_or_ignore_shipment fk d id o dst dr = inr d' ->
            names_unique d -> names_unique d') as HS.
  { intros fk d id o dst dr d' E.
    apply insert_or_ignore_shipment_frame in E as (Ep & El & Ed & _).
    unfold names_unique. now rewrite Ep, El, Ed. }
  assert (forall fk d id p st d',
            insert_line_item fk d id p 1 st = inr d' ->
            names_unique d -> names_unique d') as HI.
  { intros fk d id p st d' E.
    apply insert_line_item_frame in E as (Ep & El & Ed & _).
    unfold names_unique. now rewrite Ep, El, Ed. }
  split; [|split; [|split]].
  - intros name. split; [|split].
    + now apply preserves_get_or_insert_product.
    + now apply preserves_get_or_insert_location.
    + now apply preserves_get_or_insert_driver.
  - intros s1_path s2_path r1 r2. split.
    + now apply (preserves_shipment_iteration names_unique HL HD HS).
    + now apply (preserves_line_item_iteration names_unique HP HI).
  - intros s1_path s2_path df0 df1 df2.
    now apply (preserves_populate_database_conn names_unique HP HL HD HS HI).
  - intros file df0 df1 df2.
    destruct (main_populate_database file df0 df1 df2) as [_ ->].
    apply (populate_database_keeps names_unique HP HL HD HS HI).
    repeat split; constructor.
Qed.

(** C5.  The line items that [populate_database] adds to the store it found
    all have Quantity 1, and so has every line item of the store that a full
    load leaves. *)
Theorem line_items_have_quantity_1 :
  (forall file out s1_path s2_path df0 df1 df2,
     adds_quantity_1
       (match file with Some d0 => d0 | None => empty_db end)
       (file_after
          (populate_database file out s1_path s2_path df0 df1 df2))) /\
  (forall file df0 df1 df2,
     quantity_1 (ShipmentLineItems (file_after (main file df0 df1 df2)))).
Proof.
  assert (forall d0 file out s1_path s2_path df0 df1 df2,
            adds_quantity_1 d0
              (match file with Some d => d | None => empty_db end) ->
            adds_quantity_1 d0
              (file_after
                 (populate_database file out s1_path s2_path df0 df1 df2)))
    as Hkeep.
  { intros d0 file out s1_path s2_path df0 df1 df2.
    apply populate_database_keeps.
    - intros d name t i _ H. exact H.
    - intros d name t i _ H. exact H.
    - intros d name t i _ H. exact H.
    - intros fk d id o dst dr d' E (new & Hn & Hq).
      apply insert_or_ignore_shipment_frame in E as (_ & _ & _ & Ei & _).
      exists new. now rewrite Ei.
    - intros fk d id p st d' E (new & Hn & Hq).
      apply insert_line_item_frame in E
        as (_ & _ & _ & _ & z & i & _ & Ei).
      exists (new ++ [mk_line_item i z p 1 st]).
      rewrite Ei, Hn, app_assoc. split; [reflexivity|].
      apply Forall_app. split; [exact Hq|]. now repeat constructor. }
  split.
  - intros file out s1_path s2_path df0 df1 df2. apply Hkeep.
    exists []. split; [now rewrite app_nil_r | constructor].
  - intros file df0 df1 df2.
    destruct (main_populate_database file df0 df1 df2) as [_ ->].
    destruct (Hkeep empty_db (Some empty_db) (main_prelude file)
                SPREADSHEET1_PATH SPREADSHEET2_PATH df0 df1 df2)
      as (new & -> & Hq).
    + exists []. split; [reflexivity | constructor].
    + exact Hq.
Qed.

(** C7.  The store that [main] leaves and the way it ends are a function of
    the three input tables alone: whatever file was there at start is removed
    first, so two runs on the same tables end alike and leave the same five
    tables, surrogate keys included; in particular for a second run that
    finds the file of the first. *)
Theorem load_deterministic (file file' : option db)
    (df0 : list row0) (df1 : list row1) (df2 : list row2) :
  ended (main file df0 df1 df2) = ended (main file' df0 df1 df2) /\
  file_after (main file df0 df1 df2) = file_after (main file' df0 df1 df2) /\
  file_after (main (Some (file_after (main file df0 df1 df2))) df0 df1 df2)
    = file_after (main file df0 df1 df2).
Proof.
  assert (forall f g,
            ended (main f df0 df1 df2) = ended (main g df0 df1 df2) /\
            file_after (main f df0 df1 df2)
              = file_after (main g df0 df1 df2)) as H.
  { intros f g.
    destruct (main_populate_database f df0 df1 df2) as [-> ->].
    destruct (main_populate_database g df0 df1 df2) as [-> ->].
    rewrite (populate_database_output _ (main_prelude f)).
    rewrite (populate_database_output _ (main_prelude g)).
    split; reflexivity. }
  split; [apply H | split; apply H].
Qed.

(** C9.  The verification printout changes nothing: its queries return
    normally and leave the file, the transaction and the pragma of its
    connection as they were, so the file after [main] is the file that
    [populate_database] left; and the line-item query prints at most ten
    rows. *)
Theorem verification_changes_nothing :
  (forall w,
     let w' := snd (verification_conn w) in
     fst (verification_conn w) = Return tt /\
     committed w' = committed w /\ current w' = current w /\
     foreign_keys w' = foreign_keys w) /\
  (forall d out, file_after (verification (Some d) out) = d) /\
  (forall file df0 df1 df2,
     file_after (main file df0 df1 df2) =
     file_after (populate_database (Some empty_db) (main_prelude file)
                   SPREADSHEET1_PATH SPREADSHEET2_PATH df0 df1 df2)) /\
  (forall d, (List.length (select_line_items_joined 10 d) <= 10)%nat).
Proof.
  split; [|split; [|split]].
  - intros w. repeat split; reflexivity.
  - intros d out. reflexivity.
  - intros file df0 df1 df2. apply main_populate_database.
  - intros d. unfold select_line_items_joined. apply firstn_le_length.
Qed.

(** ** The try statements of the two loops *)

Lemma get_or_insert_frame (column : string) (get : db -> entity_table)
    (set : db -> entity_table -> db) (name : option string) (w : world) :
  let w' := snd (get_or_insert column get set name w) in
  committed w' = committed w /\ foreign_keys w' = foreign_keys w /\
  stdout w' = stdout w.
Proof.
  unfold get_or_insert, bind, query, execute, insert_into; simpl.
  destruct (fetchone _); simpl; [tauto|].
  destruct (insert_name _ _ name) as [e|[t i]]; simpl; tauto.
Qed.

Lemma shipment_try_raises (r : row2) (w w1 : world) (e : exn) :
  shipment_try r w = (Raise e, w1) ->
  committed w1 = committed w /\ foreign_keys w1 = foreign_keys w /\
  stdout w1 = stdout w.
Proof.
  unfold shipment_try, bind.
  rewrite get_or_insert_location_eq, get_or_insert_driver_eq.
  pose proof (get_or_insert_frame Locations_LocationName Locations set_Locations
                (origin_warehouse2 r) w) as Ha.
  destruct (get_or_insert
      Locations_LocationName Locations set_Locations (origin_warehouse2 r) w)
    as [[o|ea] wa]; simpl in Ha; [|intros [= _ <-]; exact Ha].
  pose proof (get_or_insert_frame Locations_LocationName Locations set_Locations
                (destination_store2 r) wa) as Hb.
  destruct (get_or_insert
      Locations_LocationName Locations set_Locations (destination_store2 r) wa)
    as [[dst|eb] wb]; simpl in Hb;
    [|intros [= _ <-]; intuition congruence].
  pose proof (get_or_insert_frame Drivers_DriverIdentifier Drivers set_Drivers
                (driver_identifier2 r) wb) as Hc.
  destruct (get_or_insert
      Drivers_DriverIdentifier Drivers set_Drivers (driver_identifier2 r) wb)
    as [[dr|ec] wc]; simpl in Hc;
    [|intros [= _ <-]; intuition congruence].
  unfold execute.
  destruct (insert_or_ignore_shipment _ _ _ _ _ _) as [ex|d'];
    [intros [= _ <-]; intuition congruence | discriminate].
Qed.

Lemma line_item_try_raises (s1_path : string) (r : row1) (w w1 : world)
    (e : exn) :
  line_item_try s1_path r w = (Raise e, w1) ->
  committed w1 = committed w /\ foreign_keys w1 = foreign_keys w.
Proof.
  unfold line_item_try, bind.
  rewrite get_or_insert_product_eq.
  pose proof (get_or_insert_frame
      Products_ProductName Products set_Products (product1 r) w) as Ha.
  destruct (get_or_insert
      Products_ProductName Products set_Products (product1 r) w)
    as [[p|ea] wa]; simpl in Ha; [|intros [= _ <-]; tauto].
  unfold print, execute; simpl.
  destruct (insert_line_item _ _ _ _ _ _) as [ex|d'];
    [intros [= _ <-]; simpl; intuition congruence | discriminate].
Qed.

(** C4.  Whatever exception the try statement of an iteration raises, in
    either loop, be it the IntegrityError of a constraint or another
    exception such as the OverflowError of the driver, the iteration itself
    returns normally: its handler prints one line that names the row's
    shipment identifier and the source file, and rolls the transaction back
    to the file as last committed, which it leaves as it was; the loop then
    goes on with the next row.  No iteration raises. *)
Theorem row_errors_are_contained (s1_path s2_path : string) (w : world) :
  (forall r e w1,
     shipment_try r w = (Raise e, w1) ->
     let ev :=
       match e with
       | IntegrityError _ =>
           IntegrityErrorShipment (shipment_identifier2 r) s2_path e
       | OtherException _ =>
           UnexpectedErrorShipment s2_path e (shipment_identifier2 r)
       end in
     let w' := mk_world (foreign_keys w) (committed w) (committed w)
                 (stdout w1 ++ [ev]) in
     shipment_iteration s2_path r w = (Return tt, w') /\
     forall rest,
       for_each (r :: rest) (shipment_iteration s2_path) w =
       for_each rest (shipment_iteration s2_path) w') /\
  (forall r e w1,
     line_item_try s1_path r w = (Raise e, w1) ->
     let ev :=
       match e with
       | IntegrityError _ =>
           IntegrityErrorLineItem (shipment_identifier1 r) s1_path e
       | OtherException _ =>
           UnexpectedErrorLineItem s1_path e (shipment_identifier1 r)
       end in
     let w' := mk_world (foreign_keys w) (committed w) (committed w)
                 (stdout w1 ++ [ev]) in
     line_item_iteration s1_path r w = (Return tt, w') /\
     forall rest,
       for_each (r :: rest) (line_item_iteration s1_path) w =
       for_each rest (line_item_iteration s1_path) w') /\
  (forall r2 r1,
     fst (shipment_iteration s2_path r2 w) = Return tt /\
     fst (line_item_iteration s1_path r1 w) = Return tt).
Proof.
  split; [|split].
  - intros r e w1 E.
    destruct (shipment_try_raises r w w1 e E) as (Hc & Hf & _).
    assert (forall ev,
              (print ev ;; rollback) w1 =
              (Return tt, mk_world (foreign_keys w) (committed w)
                            (committed w) (stdout w1 ++ [ev]))) as Hh.
    { intros ev. unfold bind, print, rollback; simpl.
      now rewrite Hc, Hf. }
    cbv zeta.
    destruct e as [msg|msg];
      (assert (shipment_iteration s2_path r w = _) as Hi
         by (unfold shipment_iteration, try_except; rewrite E; apply Hh);
       split; [exact Hi|];
       intros rest; simpl; unfold bind at 1; now rewrite Hi).
  - intros r e w1 E.
    destruct (line_item_try_raises s1_path r w w1 e E) as (Hc & Hf).
    assert (forall ev,
              (print ev ;; rollback) w1 =
              (Return tt, mk_world (foreign_keys w) (committed w)
                            (committed w) (stdout w1 ++ [ev]))) as Hh.
    { intros ev. unfold bind, print, rollback; simpl.
      now rewrite Hc, Hf. }
    cbv zeta.
    destruct e as [msg|msg];
      (assert (line_item_iteration s1_path r w = _) as Hi
         by (unfold line_item_iteration, try_except; rewrite E; apply Hh);
       split; [exact Hi|];
       intros rest; simpl; unfold bind at 1; now rewrite Hi).
  - intros r2 r1. split.
    + unfold shipment_iteration, try_except.
      destruct (shipment_try r2 w) as [[[]|[msg|msg]] w1]; reflexivity.
    + unfold line_item_iteration, try_except.
      destruct (line_item_try s1_path r1 w) as [[[]|[msg|msg]] w1];
        reflexivity.
Qed.

(** ** pandas: what [drop_duplicates] and [unique] keep *)

Lemma cell_eqb_eq {A} (eqb : A -> A -> bool) (x y : option A) :
  (forall a b, eqb a b = true <-> a = b) ->
  cell_eqb eqb x y = true <-> x = y.
Proof.
  intros H. destruct x as [a|], y as [b|]; simpl.
  - rewrite H. split; congruence.
  - split; discriminate.
  - split; discriminate.
  - tauto.
Qed.

Section DropDuplicates.

Context {A K : Type}.
Variable key : A -> K.
Variable eqb : K -> K -> bool.
Hypothesis eqb_eq : forall a b, eqb a b = true <-> a = b.

Lemma drop_duplicates_In (l : list A) (x : A) :
  In x (drop_duplicates key eqb l) -> In x l.
Proof.
  induction l as [|y l IH]; simpl; [tauto|].
  intros [->|H]; [now left|].
  apply filter_In in H as [H _]. right. now apply IH.
Qed.

Lemma drop_duplicates_key (l : list A) (x : A) :
  In x l -> exists y, In y (drop_duplicates key eqb l) /\ key y = key x.
Proof.
  induction l as [|y l IH]; simpl; [tauto|].
  intros [->|H].
  - exists x. split; [now left | reflexivity].
  - destruct (IH H) as (y' & Hy & Hk).
    destruct (eqb (key y) (key y')) eqn:E.
    + exists y. split; [now left|]. apply eqb_eq in E. congruence.
    + exists y'. split; [|exact Hk]. right. apply filter_In.
      split; [exact Hy | now rewrite E].
Qed.

Lemma NoDup_map_filter (f : A -> bool) (l : list A) :
  NoDup (map key l) -> NoDup (map key (filter f l)).
Proof.
  induction l as [|x l IH]; simpl; [tauto|].
  intros H. apply NoDup_cons_iff in H as [Hx Hl].
  destruct (f x); simpl; [|now apply IH].
  constructor; [|now apply IH].
  intros Hin. apply Hx. apply in_map_iff in Hin as (y & Hy & Hin).
  apply in_map_iff. exists y. split; [exact Hy|].
  now apply filter_In in Hin.
Qed.

Lemma drop_duplicates_NoDup (l : list A) :
  NoDup (map key (drop_duplicates key eqb l)).
Proof.
  induction l as [|x l IH]; simpl; [constructor|].
  constructor; [|now apply NoDup_map_filter].
  intros Hin. apply in_map_iff in Hin as (y & Hy & Hin).
  apply filter_In in Hin as [_ Hf].
  assert (eqb (key x) (key y) = true) as E by now apply eqb_eq.
  rewrite E in Hf. discriminate.
Qed.


End DropDuplicates.

Lemma unique_In (l : list (option string)) (c : option string) :
  In c l -> In c (unique l).
Proof.
  intros H.
  destruct (drop_duplicates_key (fun x => x) (cell_eqb String.eqb)
              (fun a b => cell_eqb_eq String.eqb a b String.eqb_eq) l c H)
    as (y & Hy & ->).
  exact Hy.
Qed.

(** ** Step 1: the entity tables *)

Lemma get_or_insert_known (column : string) (get : db -> entity_table)
    (set : db -> entity_table -> db) (c : option string) (w : world) :
  known (get (current w)) c ->
  get_or_insert column get set c w =
  (Return (lookup_cell (get (current w)) c), w).
Proof.
  intros (n & i & -> & Hl). unfold lookup_cell. rewrite Hl.
  now apply get_or_insert_found.
Qed.

Lemma lookup_insert_other (rows : list (Z * string)) (s s' i j : Z)
    (n m : string) :
  lookup (mk_entity_table rows s) m = Some j ->
  lookup (mk_entity_table (rows ++ [(i, n)]) s') m = Some j.
Proof.
  intros H. rewrite (lookup_app _ _ _ s). now rewrite H.
Qed.

Lemma lookup_insert_same (rows : list (Z * string)) (s s' i : Z)
    (n : string) :
  lookup (mk_entity_table rows s) n = None ->
  lookup (mk_entity_table (rows ++ [(i, n)]) s') n = Some i.
Proof.
  intros H. rewrite (lookup_app _ _ _ s), H.
  unfold lookup, fetchone, select_id_where_name, has_name; simpl.
  now rewrite String.eqb_refl.
Qed.

Section ResolveAll.

Variable column : string.
Variable get : db -> entity_table.
Variable set : db -> entity_table -> db.
Hypothesis get_set : forall d t, get (set d t) = t.
Hypothesis set_set : forall d t t', set (set d t) t' = set d t'.
Hypothesis set_get : forall d, set d (get d) = d.

(** A loop of step 1 that returns has changed one table only, has kept the
    identifiers that table had, and has left it with a row for every name of
    the list, none of which is missing. *)
Lemma for_each_get_or_insert (l : list (option string)) :
  forall w w',
    for_each l (fun name => get_or_insert column get set name ;; ret tt) w
      = (Return tt, w') ->
    exists t,
      w' = mk_world (foreign_keys w) (committed w) (set (current w) t)
             (stdout w) /\
      (forall n i, lookup (get (current w)) n = Some i ->
                   lookup t n = Some i) /\
      (forall c, In c l -> known t c).
Proof.
  induction l as [|c l IH]; intros w w'.
  - simpl. intros [= <-]. exists (get (current w)).
    rewrite set_get. destruct w; simpl. repeat split; auto. contradiction.
  - simpl. unfold bind at 1. unfold bind at 1.
    destruct c as [n|]; [|rewrite get_or_insert_missing; discriminate].
    destruct (lookup (get (current w)) n) as [i|] eqn:Hl.
    + rewrite (get_or_insert_found column get set w n i Hl). unfold ret at 1.
      intros E. destruct (IH _ _ E) as (t & -> & Hmono & Hknown).
      exists t. repeat split; auto.
      intros c [<-|Hin]; [|now apply Hknown].
      exists n, i. split; [reflexivity | now apply Hmono].
    + rewrite (get_or_insert_new column get set w n Hl); cbv zeta.
      unfold ret at 1.
      intros E. destruct (IH _ _ E) as (t & -> & Hmono & Hknown).
      simpl in *. rewrite get_set in Hmono. rewrite set_set.
      exists t. repeat split; auto.
      * intros m j Hm. apply Hmono.
        destruct (get (current w)) as [rows s]; simpl in *.
        now apply (lookup_insert_other rows s).
      * intros c [<-|Hin]; [|now apply Hknown].
        exists n, (autoincrement_rowid (map fst (et_rows (get (current w))))
                     (et_seq (get (current w)))).
        split; [reflexivity|]. apply Hmono.
        destruct (get (current w)) as [rows s]; simpl in *.
        now apply (lookup_insert_same rows s).
Qed.

End ResolveAll.

Lemma known_mono (t t' : entity_table) (c : option string) :
  (forall n i, lookup t n = Some i -> lookup t' n = Some i) ->
  known t c -> known t' c.
Proof. intros H (n & i & -> & Hl). exists n, i. auto. Qed.

(** Step 1 returns only after every name of the three tables has a row,
    leaves the transaction committed and Shipments and ShipmentLineItems as
    they were. *)
Lemma populate_entities_returns (df0 : list row0) (df1 : list row1)
    (df2 : list row2) (w w' : world) :
  populate_entities df0 df1 df2 w = (Return tt, w') ->
  exists d,
    w' = mk_world (foreign_keys w) d d
           (stdout w ++ [PopulatingEntities; FinishedEntities]) /\
    Shipments d = Shipments (current w) /\
    ShipmentLineItems d = ShipmentLineItems (current w) /\
    ShipmentLineItems_seq d = ShipmentLineItems_seq (current w) /\
    names_known d df1 df2.
Proof.
  unfold populate_entities.
  rewrite get_or_insert_product_eq, get_or_insert_location_eq,
    get_or_insert_driver_eq.
  unfold bind at 1. unfold print at 1. unfold bind at 1.
  match goal with |- context [for_each ?l ?f ?w0] =>
    destruct (for_each l f w0) as [[[]|e] wp] eqn:Ep; [|discriminate] end.
  apply for_each_get_or_insert in Ep as (tp & -> & _ & Kp);
    [| reflexivity | reflexivity | intros []; reflexivity].
  unfold bind at 1. unfold commit at 1. unfold bind at 1.
  match goal with |- context [for_each ?l ?f ?w0] =>
    destruct (for_each l f w0) as [[[]|e] wl] eqn:El; [|discriminate] end.
  apply for_each_get_or_insert in El as (tl & -> & _ & Kl);
    [| reflexivity | reflexivity | intros []; reflexivity].
  unfold bind at 1. unfold commit at 1. unfold bind at 1.
  match goal with |- context [for_each ?l ?f ?w0] =>
    destruct (for_each l f w0) as [[[]|e] wd] eqn:Ed; [|discriminate] end.
  apply for_each_get_or_insert in Ed as (td & -> & _ & Kd);
    [| reflexivity | reflexivity | intros []; reflexivity].
  unfold bind, commit, print; simpl.
  intros [= <-]. eexists. split; [rewrite <- app_assoc; reflexivity|].
  simpl. repeat split.
  - intros r Hr. apply Kp. apply unique_In, in_or_app. right.
    now apply in_map.
  - apply Kl. apply unique_In. rewrite !in_app_iff. right; right; left.
    now apply in_map.
  - apply Kl. apply unique_In. rewrite !in_app_iff. right; right; right.
    now apply in_map.
  - apply Kd. apply unique_In. rewrite !in_app_iff. right.
    now apply in_map.
Qed.

(** ** Step 2: the two loops on a store that knows the names *)

Lemma store_shipment_frame (d : db) (r : row2) :
  Products (store_shipment d r) = Products d /\
  Locations (store_shipment d r) = Locations d /\
  Drivers (store_shipment d r) = Drivers d /\
  ShipmentLineItems (store_shipment d r) = ShipmentLineItems d /\
  ShipmentLineItems_seq (store_shipment d r) = ShipmentLineItems_seq d.
Proof.
  unfold store_shipment.
  destruct (insert_or_ignore_shipment _ _ _ _ _ _) as [e|d'] eqn:E.
  - tauto.
  - now apply insert_or_ignore_shipment_frame in E.
Qed.

Lemma store_line_item_frame (d : db) (r : row1) :
  Products (store_line_item d r) = Products d /\
  Locations (store_line_item d r) = Locations d /\
  Drivers (store_line_item d r) = Drivers d /\
  Shipments (store_line_item d r) = Shipments d.
Proof.
  unfold store_line_item.
  destruct (insert_line_item _ _ _ _ _ _) as [e|d'] eqn:E.
  - tauto.
  - apply insert_line_item_frame in E. tauto.
Qed.

Lemma fold_store_shipment_frame (rows : list row2) (d : db) :
  let d' := fold_left store_shipment rows d in
  Products d' = Products d /\ Locations d' = Locations d /\
  Drivers d' = Drivers d /\
  ShipmentLineItems d' = ShipmentLineItems d /\
  ShipmentLineItems_seq d' = ShipmentLineItems_seq d.
Proof.
  revert d. induction rows as [|r rows IH]; intros d; simpl.
  - tauto.
  - destruct (IH (store_shipment d r)) as (-> & -> & -> & -> & ->).
    apply store_shipment_frame.
Qed.

Lemma fold_store_line_item_frame (rows : list row1) (d : db) :
  let d' := fold_left store_line_item rows d in
  Products d' = Products d /\ Locations d' = Locations d /\
  Drivers d' = Drivers d /\ Shipments d' = Shipments d.
Proof.
  revert d. induction rows as [|r rows IH]; intros d; simpl.
  - tauto.
  - destruct (IH (store_line_item d r)) as (-> & -> & -> & ->).
    apply store_line_item_frame.
Qed.

(** The try statement of the Shipments loop returns on such a store for a
    row whose identifier the driver binds. *)
Lemma shipment_try_known (r : row2) (w : world) :
  foreign_keys w = false ->
  storable2 r = true ->
  known (Locations (current w)) (origin_warehouse2 r) ->
  known (Locations (current w)) (destination_store2 r) ->
  known (Drivers (current w)) (driver_identifier2 r) ->
  let d := store_shipment (current w) r in
  shipment_try r w = (Return tt, mk_world false d d (stdout w)).
Proof.
  intros Hfk Hs Ka Kb Kc. unfold shipment_try.
  rewrite get_or_insert_location_eq, get_or_insert_driver_eq.
  unfold bind at 1. rewrite (get_or_insert_known _ _ _ _ _ Ka).
  unfold bind at 1. rewrite (get_or_insert_known _ _ _ _ _ Kb).
  unfold bind at 1. rewrite (get_or_insert_known _ _ _ _ _ Kc).
  unfold bind, execute, commit, store_shipment. rewrite Hfk.
  destruct (insert_or_ignore_shipment _ _ _ _ _ _) as [e|d'] eqn:E;
    [|reflexivity].
  unfold insert_or_ignore_shipment in E. unfold storable2 in Hs.
  rewrite Hs in E. simpl in E.
  destruct (has_shipment _ _); discriminate.
Qed.

(** For a row whose identifier the driver refuses it raises the
    OverflowError, before anything is stored. *)
Lemma shipment_try_overflow (r : row2) (w : world) :
  storable2 r = false ->
  known (Locations (current w)) (origin_warehouse2 r) ->
  known (Locations (current w)) (destination_store2 r) ->
  known (Drivers (current w)) (driver_identifier2 r) ->
  shipment_try r w = (Raise OVERFLOW, w).
Proof.
  intros Hs Ka Kb Kc. unfold shipment_try.
  rewrite get_or_insert_location_eq, get_or_insert_driver_eq.
  unfold bind at 1. rewrite (get_or_insert_known _ _ _ _ _ Ka).
  unfold bind at 1. rewrite (get_or_insert_known _ _ _ _ _ Kb).
  unfold bind at 1. rewrite (get_or_insert_known _ _ _ _ _ Kc).
  unfold bind, execute, insert_or_ignore_shipment. unfold storable2 in Hs.
  now rewrite Hs.
Qed.

(** An iteration of the Shipments loop on such a store. *)
Lemma shipment_iteration_known (s2_path : string) (r : row2) (w : world) :
  foreign_keys w = false -> committed w = current w ->
  known (Locations (current w)) (origin_warehouse2 r) ->
  known (Locations (current w)) (destination_store2 r) ->
  known (Drivers (current w)) (driver_identifier2 r) ->
  let d := store_shipment (current w) r in
  shipment_iteration s2_path r w =
  (Return tt, mk_world false d d (stdout w ++ shipment_events s2_path r)).
Proof.
  intros Hfk Hc Ka Kb Kc. cbv zeta.
  unfold shipment_iteration, try_except, shipment_events.
  destruct (storable2 r) eqn:Hs.
  - rewrite (shipment_try_known r w Hfk Hs Ka Kb Kc). now rewrite app_nil_r.
  - rewrite (shipment_try_overflow r w Hs Ka Kb Kc).
    unfold OVERFLOW, bind, print, rollback, store_shipment,
      insert_or_ignore_shipment; simpl.
    unfold storable2 in Hs. rewrite Hs, Hfk, Hc. reflexivity.
Qed.

(** On such a store the Shipments loop returns and leaves the transaction
    committed; it prints one line for each identifier that the driver
    refuses. *)
Lemma shipments_loop (s2_path : string) (rows : list row2) :
  forall w,
    foreign_keys w = false -> committed w = current w ->
    (forall r, In r rows ->
       known (Locations (current w)) (origin_warehouse2 r) /\
       known (Locations (current w)) (destination_store2 r) /\
       known (Drivers (current w)) (driver_identifier2 r)) ->
    let d := fold_left store_shipment rows (current w) in
    for_each rows (shipment_iteration s2_path) w =
    (Return tt,
     mk_world false d d
       (stdout w ++ flat_map (shipment_events s2_path) rows)).
Proof.
  induction rows as [|r rows IH]; intros w Hfk Hc K.
  - simpl. destruct w as [fk c d o]; simpl in *. subst.
    now rewrite app_nil_r.
  - destruct (K r (or_introl eq_refl)) as (Ka & Kb & Kc).
    pose proof (shipment_iteration_known s2_path r w Hfk Hc Ka Kb Kc) as E.
    cbv zeta in E.
    simpl. unfold bind. rewrite E.
    destruct (store_shipment_frame (current w) r) as (_ & El & Ed & _).
    rewrite (IH (mk_world false (store_shipment (current w) r)
                   (store_shipment (current w) r)
                   (stdout w ++ shipment_events s2_path r))); simpl; auto.
    + now rewrite <- app_assoc.
    + intros r' Hr'. rewrite El, Ed. apply K. now right.
Qed.

(** When the driver binds every identifier, the loop prints nothing and is
    the loop of its try statements. *)
Lemma shipment_events_storable (s2_path : string) (rows : list row2) :
  Forall (fun r => storable2 r = true) rows ->
  flat_map (shipment_events s2_path) rows = [].
Proof.
  induction 1 as [|r rows Hr _ IH]; simpl; [reflexivity|].
  unfold shipment_events at 1. now rewrite Hr.
Qed.

Lemma shipments_loop_try (rows : list row2) :
  forall w,
    foreign_keys w = false ->
    Forall (fun r => storable2 r = true) rows ->
    (forall r, In r rows ->
       known (Locations (current w)) (origin_warehouse2 r) /\
       known (Locations (current w)) (destination_store2 r) /\
       known (Drivers (current w)) (driver_identifier2 r)) ->
    committed w = current w ->
    let d := fold_left store_shipment rows (current w) in
    for_each rows shipment_try w = (Return tt, mk_world false d d (stdout w)).
Proof.
  induction rows as [|r rows IH]; intros w Hfk Hid K Hc.
  - simpl. destruct w as [fk c d o]; simpl in *. subst. reflexivity.
  - apply Forall_cons_iff in Hid as [Hr Hid].
    destruct (K r (or_introl eq_refl)) as (Ka & Kb & Kc).
    pose proof (shipment_try_known r w Hfk Hr Ka Kb Kc) as E.
    cbv zeta in E.
    simpl. unfold bind. rewrite E.
    destruct (store_shipment_frame (current w) r) as (_ & El & Ed & _).
    apply (IH (mk_world false (store_shipment (current w) r)
                 (store_shipment (current w) r) (stdout w))); simpl; auto.
    intros r' Hr'. rewrite El, Ed. apply K. now right.
Qed.

(** An iteration of the ShipmentLineItems loop on such a store. *)
Lemma line_item_iteration_known (s1_path : string) (r : row1) (w : world) :
  foreign_keys w = false -> committed w = current w ->
  known (Products (current w)) (product1 r) ->
  let d := store_line_item (current w) r in
  line_item_iteration s1_path r w =
  (Return tt, mk_world false d d (stdout w ++ line_item_events s1_path r)).
Proof.
  intros Hfk Hc K. unfold line_item_iteration, try_except, line_item_try.
  rewrite get_or_insert_product_eq.
  unfold bind at 1. rewrite (get_or_insert_known _ _ _ _ _ K).
  unfold bind, print, execute, commit, rollback, store_line_item,
    line_item_events, insert_line_item, storable1; simpl.
  rewrite Hfk.
  destruct (int64b (shipment_identifier1 r)); simpl.
  - reflexivity.
  - rewrite Hc, <- app_assoc. reflexivity.
Qed.

Lemma line_items_loop (s1_path : string) (rows : list row1) :
  forall w,
    foreign_keys w = false -> committed w = current w ->
    (forall r, In r rows -> known (Products (current w)) (product1 r)) ->
    let d := fold_left store_line_item rows (current w) in
    for_each rows (line_item_iteration s1_path) w =
    (Return tt,
     mk_world false d d
       (stdout w ++ flat_map (line_item_events s1_path) rows)).
Proof.
  induction rows as [|r rows IH]; intros w Hfk Hc K.
  - simpl. destruct w as [fk c d o]; simpl in *. subst.
    now rewrite app_nil_r.
  - pose proof (line_item_iteration_known s1_path r w Hfk Hc
                  (K r (or_introl eq_refl))) as E. cbv zeta in E.
    simpl. unfold bind. rewrite E.
    destruct (store_line_item_frame (current w) r) as (Ep & _).
    rewrite (IH (mk_world false (store_line_item (current w) r)
                   (store_line_item (current w) r)
                   (stdout w ++ line_item_events s1_path r))); simpl; auto.
    + now rewrite <- app_assoc.
    + intros r' Hr'. rewrite Ep. apply K. now right.
Qed.

(** [populate_database] on a connection with the pragma off: it ends as
    step 1 ends, and when step 1 returns, the store it leaves is the store
    of step 1 with the Shipments rows of the deduplicated table C and the
    line items of table B added, in that order. *)
Lemma populate_database_conn_returns (s1_path s2_path : string)
    (df0 : list row0) (df1 : list row1) (df2 : list row2) (w : world) :
  foreign_keys w = false ->
  match populate_entities df0 df1 df2 w with
  | (Raise e, w1) =>
      populate_database_conn s1_path s2_path df0 df1 df2 w = (Raise e, w1)
  | (Return _, w1) =>
      let rows := drop_duplicates shipment_identifier2 Z.eqb df2 in
      let d := fold_left store_line_item df1
                 (fold_left store_shipment rows (current w1)) in
      names_known (current w1) df1 df2 /\
      committed w1 = current w1 /\
      Shipments (current w1) = Shipments (current w) /\
      ShipmentLineItems (current w1) = ShipmentLineItems (current w) /\
      ShipmentLineItems_seq (current w1) = ShipmentLineItems_seq (current w) /\
      populate_database_conn s1_path s2_path df0 df1 df2 w =
      (Return tt,
       mk_world false d d
         (stdout w ++ [PopulatingEntities; FinishedEntities] ++
          [PopulatingShipments] ++
          flat_map (shipment_events s2_path) rows ++
          flat_map (line_item_events s1_path) df1 ++ [FinishedShipments]))
  end.
Proof.
  intros Hfk. unfold populate_database_conn.
  destruct (populate_entities df0 df1 df2 w) as [[[]|e] w1] eqn:E;
    [|unfold bind; now rewrite E].
  unfold bind at 1. rewrite E.
  apply populate_entities_returns in E
    as (d1 & -> & Hs & Hi & Hq & Kp & Kl).
  cbv zeta. cbn [current committed stdout foreign_keys].
  split; [split; [exact Kp | exact Kl]|].
  do 4 (split; [assumption || reflexivity|]).
  unfold populate_shipments.
  unfold bind at 1. unfold print at 1. unfold bind at 1.
  cbn [current committed stdout foreign_keys]. rewrite Hfk.
  match goal with |- context [for_each ?l (shipment_iteration _) ?w0] =>
    pose proof (shipments_loop s2_path l w0) as Et end.
  cbv zeta in Et. cbn [current committed stdout foreign_keys] in Et.
  rewrite Et;
    [| reflexivity | reflexivity
     | intros r Hr; apply Kl; now apply drop_duplicates_In in Hr].
  unfold bind at 1.
  match goal with |- context [fold_left store_shipment ?l ?d0] =>
    destruct (fold_store_shipment_frame l d0) as (Ep & _) end.
  rewrite line_items_loop.
  - unfold print; cbn [current committed stdout foreign_keys].
    repeat rewrite <- app_assoc. reflexivity.
  - reflexivity.
  - reflexivity.
  - intros r Hr. cbn [current]. rewrite Ep. now apply Kp.
Qed.

(** ** The rows the two loops add *)

Lemma has_shipment_false (z : Z) (d : db) :
  has_shipment z d = false <-> ~ In z (map ShipmentID (Shipments d)).
Proof.
  unfold has_shipment. split.
  - intros H Hin. apply in_map_iff in Hin as (s & Hs & Hin).
    assert (existsb (fun s => ShipmentID s =? z) (Shipments d) = true) as E.
    { apply existsb_exists. exists s. split; [exact Hin|]. lia. }
    congruence.
  - intros H. destruct (existsb _ _) eqn:E; [|reflexivity].
    apply existsb_exists in E as (s & Hin & Hs). exfalso. apply H.
    apply in_map_iff. exists s. split; [lia | exact Hin].
Qed.

(** Rows with pairwise distinct identifiers, none of them in Shipments yet:
    each row whose identifier the driver binds adds its Shipments row, and
    the other rows add nothing. *)
Lemma fold_store_shipment_rows (rows : list row2) :
  forall d,
    NoDup (map shipment_identifier2 rows) ->
    (forall r, In r rows ->
               has_shipment (shipment_identifier2 r) d = false) ->
    Shipments (fold_left store_shipment rows d) =
    Shipments d ++
    map (row_shipment (Locations d) (Drivers d)) (filter storable2 rows).
Proof.
  induction rows as [|r rows IH]; intros d Hnd Hnew;
    cbn [fold_left map filter] in *.
  - now rewrite app_nil_r.
  - apply NoDup_cons_iff in Hnd as [Hx Hnd].
    destruct (storable2 r) eqn:Hr.
    + assert (store_shipment d r =
              set_Shipments d
                (Shipments d ++ [row_shipment (Locations d) (Drivers d) r]))
        as Es.
      { unfold store_shipment, insert_or_ignore_shipment, row_shipment.
        unfold storable2 in Hr. rewrite Hr.
        rewrite (Hnew r (or_introl eq_refl)). reflexivity. }
      rewrite IH; auto.
      * rewrite Es. cbn [map]. simpl. now rewrite <- app_assoc.
      * intros r' Hin. rewrite Es.
        apply has_shipment_false. simpl. rewrite map_app, in_app_iff. simpl.
        intros [H|[H|[]]].
        -- revert H. apply has_shipment_false. apply Hnew. now right.
        -- apply Hx. rewrite H. now apply in_map.
    + assert (store_shipment d r = d) as Es.
      { unfold store_shipment, insert_or_ignore_shipment.
        unfold storable2 in Hr. now rewrite Hr. }
      rewrite Es. apply IH; [exact Hnd|].
      intros r' Hin. apply Hnew. now right.
Qed.

Lemma fold_right_max_le (i : Z) (l : list Z) (x : Z) :
  x = i \/ In x l -> x <= fold_right Z.max i l.
Proof.
  induction l as [|y l IH]; simpl.
  - intros [->|[]]. lia.
  - intros [H|[->|H]]; [specialize (IH (or_introl H)) | |
                        specialize (IH (or_intror H))]; lia.
Qed.

Lemma new_rowid_fresh (ids : list Z) (x : Z) :
  In x ids -> x < new_rowid ids.
Proof.
  destruct ids as [|i l]; simpl; [tauto|].
  intros H.
  assert (x <= fold_right Z.max i l); [|lia].
  apply fold_right_max_le. intuition.
Qed.

Lemma autoincrement_rowid_fresh (ids : list Z) (seq : Z) :
  ~ In (autoincrement_rowid ids seq) ids.
Proof.
  intros H. apply new_rowid_fresh in H. unfold autoincrement_rowid in H. lia.
Qed.

Lemma line_item_of_ext (d d' : db) (r : row1) (li : line_item) :
  Products d' = Products d -> line_item_of d r li -> line_item_of d' r li.
Proof. unfold line_item_of. now intros ->. Qed.

(** Every row of table B whose identifier the driver binds adds its line
    item, in order, under a LineItemID that no other line item has. *)
Lemma fold_store_line_item_rows (rows : list row1) :
  forall d,
    (forall r, In r rows -> known (Products d) (product1 r)) ->
    exists new,
      ShipmentLineItems (fold_left store_line_item rows d) =
        ShipmentLineItems d ++ new /\
      Forall2 (line_item_of d) (filter storable1 rows) new /\
      (NoDup (map LineItemID (ShipmentLineItems d)) ->
       NoDup (map LineItemID (ShipmentLineItems d ++ new))).
Proof.
  induction rows as [|r rows IH]; intros d K; simpl.
  - exists []. rewrite app_nil_r. repeat split; auto.
  - destruct (store_line_item_frame d r) as (Ep & _).
    destruct (IH (store_line_item d r)) as (new & En & Hf & Hnd).
    { intros r' Hr'. rewrite Ep. apply K. now right. }
    unfold storable1 at 1.
    destruct (int64b (shipment_identifier1 r)) eqn:Ez.
    + assert (exists li,
                 store_line_item d r =
                 set_ShipmentLineItems d (ShipmentLineItems d ++ [li])
                   (LineItemID li) /\
                 line_item_of d r li /\
                 ~ In (LineItemID li) (map LineItemID (ShipmentLineItems d)))
        as (li & Es & Hli & Hfresh).
      { exists (mk_line_item
                  (autoincrement_rowid (map LineItemID (ShipmentLineItems d))
                     (ShipmentLineItems_seq d))
                  (shipment_identifier1 r)
                  (lookup_cell (Products d) (product1 r)) 1 (on_time1 r)).
        split; [|split].
        - unfold store_line_item, insert_line_item. rewrite Ez. simpl.
          reflexivity.
        - unfold line_item_of; simpl. repeat split; auto.
          destruct (K r (or_introl eq_refl)) as (p & i & Hp & Hl).
          exists p. split; [exact Hp|].
          unfold lookup_cell. now rewrite Hp, Hl.
        - simpl. apply autoincrement_rowid_fresh. }
      exists (li :: new). rewrite En, Es. simpl.
      rewrite <- app_assoc. simpl. split; [reflexivity|]. split.
      * constructor; [exact Hli|].
        eapply Forall2_impl; [|exact Hf].
        intros a b. now apply line_item_of_ext.
      * intros H0. rewrite Es in Hnd. simpl in Hnd.
        rewrite <- app_assoc in Hnd. simpl in Hnd. apply Hnd.
        rewrite map_app. simpl.
        apply NoDup_app; [exact H0 | repeat constructor; simpl; tauto|].
        intros x Hx [<-|[]]. contradiction.
    + assert (store_line_item d r = d) as Es
        by (unfold store_line_item, insert_line_item; now rewrite Ez).
      rewrite Es in En, Hf, Hnd. exists new. rewrite Es. auto.
Qed.

Lemma line_item_errors (s1_path : string) (rows : list row1) :
  (List.length (filter is_line_item_error
                  (flat_map (line_item_events s1_path) rows)) +
   List.length (filter storable1 rows))%nat = List.length rows.
Proof.
  induction rows as [|r rows IH]; simpl; [reflexivity|].
  destruct (storable1 r); simpl; lia.
Qed.


Lemma line_item_events_not_shipment (s1_path : string) (rows : list row1) :
  filter is_shipment_error (flat_map (line_item_events s1_path) rows) = [].
Proof.
  induction rows as [|r l IH]; [reflexivity|].
  cbn [flat_map]. rewrite filter_app, IH, app_nil_r.
  unfold line_item_events. destruct (storable1 r); reflexivity.
Qed.

Lemma shipment_events_not_line_item (s2_path : string) (rows : list row2) :
  filter is_line_item_error (flat_map (shipment_events s2_path) rows) = [].
Proof.
  induction rows as [|r l IH]; [reflexivity|].
  simpl. rewrite filter_app, IH, app_nil_r.
  unfold shipment_events. destruct (storable2 r); reflexivity.
Qed.

Lemma shipment_events_are_errors (s2_path : string) (rows : list row2) :
  filter is_shipment_error (flat_map (shipment_events s2_path) rows) =
  flat_map (shipment_events s2_path) rows.
Proof.
  induction rows as [|r l IH]; [reflexivity|].
  simpl. rewrite filter_app, IH. f_equal.
  unfold shipment_events. destruct (storable2 r); reflexivity.
Qed.

(** A full load that ran to completion: the store it leaves and what it
    printed. *)
Lemma main_returns (file : option db)
    (df0 : list row0) (df1 : list row1) (df2 : list row2) :
  ended (main file df0 df1 df2) = Return tt ->
  exists d1,
    names_known d1 df1 df2 /\
    Shipments d1 = [] /\ ShipmentLineItems d1 = [] /\
    file_after (main file df0 df1 df2) =
      fold_left store_line_item df1
        (fold_left store_shipment
           (drop_duplicates shipment_identifier2 Z.eqb df2) d1) /\
    filter is_line_item_error (printed (main file df0 df1 df2)) =
      filter is_line_item_error
        (flat_map (line_item_events SPREADSHEET1_PATH) df1) /\
    filter is_shipment_error (printed (main file df0 df1 df2)) =
      flat_map (shipment_events SPREADSHEET2_PATH)
        (drop_duplicates shipment_identifier2 Z.eqb df2).
Proof.
  assert (main file df0 df1 df2 =
          let o := populate_database (Some empty_db) (main_prelude file)
                     SPREADSHEET1_PATH SPREADSHEET2_PATH df0 df1 df2 in
          match ended o with
          | Return _ => verification (Some (file_after o)) (printed o)
          | Raise _ => o
          end) as ->.
  { destruct file; reflexivity. }
  cbv zeta. unfold populate_database.
  pose proof (populate_database_conn_returns SPREADSHEET1_PATH
                SPREADSHEET2_PATH df0 df1 df2
                (connect (Some empty_db) (main_prelude file)) eq_refl) as H.
  destruct (populate_entities df0 df1 df2
              (connect (Some empty_db) (main_prelude file)))
    as [[[]|e] w1] eqn:E.
  - cbv zeta in H. destruct H as (K & Hc & Hs & Hi & Hq & ->).
    cbn [ended file_after printed]. intros _.
    exists (current w1). repeat split; try apply K; auto.
    + unfold verification, verification_conn, bind, query, print, connect;
        cbn [ended file_after printed stdout current committed foreign_keys
             fst snd close].
      rewrite !filter_app. cbn [filter is_line_item_error].
      assert (filter is_line_item_error (main_prelude file) = []) as ->
        by (destruct file; reflexivity).
      cbn [app]. rewrite !app_nil_r.
      now rewrite shipment_events_not_line_item.
    + unfold verification, verification_conn, bind, query, print, connect;
        cbn [ended file_after printed stdout current committed foreign_keys
             fst snd close].
      rewrite !filter_app. cbn [filter is_shipment_error].
      assert (filter is_shipment_error (main_prelude file) = []) as ->
        by (destruct file; reflexivity).
      cbn [app]. rewrite !app_nil_r.
      now rewrite line_item_events_not_shipment, app_nil_r,
        shipment_events_are_errors.
  - rewrite H. cbn [ended]. discriminate.
Qed.

(** ** The store after a full load *)

Lemma main_line_items (file : option db)
    (df0 : list row0) (df1 : list row1) (df2 : list row2) :
  ended (main file df0 df1 df2) = Return tt ->
  let d := file_after (main file df0 df1 df2) in
  Forall2 (line_item_of d) (filter storable1 df1) (ShipmentLineItems d)
  /\
  NoDup (map LineItemID (ShipmentLineItems d)) /\
  (List.length (ShipmentLineItems d) +
   List.length
     (filter is_line_item_error (printed (main file df0 df1 df2))))%nat
  = List.length df1.
Proof.
  intros H. cbv zeta.
  destruct (main_returns file df0 df1 df2 H)
    as (d1 & (Kp & Kl) & Hs & Hi & -> & -> & _).
  set (d2 := fold_left store_shipment _ d1).
  destruct (fold_store_shipment_frame
              (drop_duplicates shipment_identifier2 Z.eqb df2) d1)
    as (Ep & _ & _ & Ei & _). fold d2 in Ep, Ei.
  destruct (fold_store_line_item_rows df1 d2) as (new & En & Hf & Hnd).
  { intros r Hr. rewrite Ep. now apply Kp. }
  destruct (fold_store_line_item_frame df1 d2) as (Ep' & _).
  rewrite En, Ei, Hi in *. simpl in *.
  split; [|split].
  - eapply Forall2_impl; [|exact Hf].
    intros a b. apply line_item_of_ext. exact Ep'.
  - apply Hnd. constructor.
  - rewrite <- (line_item_errors SPREADSHEET1_PATH df1).
    rewrite (Forall2_length Hf). lia.
Qed.





Lemma filter_storable2_all (rows : list row2) :
  Forall (fun r => storable2 r = true) rows -> filter storable2 rows = rows.
Proof.
  induction 1 as [|r rows Hr _ IH]; simpl; [reflexivity|].
  now rewrite Hr, IH.
Qed.

Lemma drop_duplicates_Forall {A K} (key : A -> K) (eqb : K -> K -> bool)
    (P : A -> Prop) (l : list A) :
  Forall P l -> Forall P (drop_duplicates key eqb l).
Proof.
  intros H. apply Forall_forall. intros x Hx.
  apply drop_duplicates_In in Hx. revert x Hx. now apply Forall_forall.
Qed.

(** The Shipments table after a full load that ran to completion: one row
    for each row of the deduplicated table C whose identifier the driver
    binds, in file order. *)
Lemma main_shipments (file : option db)
    (df0 : list row0) (df1 : list row1) (df2 : list row2) :
  ended (main file df0 df1 df2) = Return tt ->
  let d := file_after (main file df0 df1 df2) in
  names_known d df1 df2 /\
  Shipments d =
  map (row_shipment (Locations d) (Drivers d))
      (filter storable2 (drop_duplicates shipment_identifier2 Z.eqb df2)).
Proof.
  intros H. cbv zeta.
  destruct (main_returns file df0 df1 df2 H)
    as (d1 & K & Hs & Hi & -> & _).
  set (rows := drop_duplicates shipment_identifier2 Z.eqb df2).
  unfold names_known in *.
  destruct (fold_store_line_item_frame df1 (fold_left store_shipment rows d1))
    as (-> & -> & -> & ->).
  destruct (fold_store_shipment_frame rows d1) as (-> & -> & -> & _).
  split; [exact K|].
  rewrite fold_store_shipment_rows.
  - now rewrite Hs.
  - apply drop_duplicates_NoDup. apply Z.eqb_eq.
  - intros r _. unfold has_shipment. now rewrite Hs.
Qed.


Lemma known_lookup_cell (t : entity_table) (c : option string) :
  known t c -> exists n, c = Some n /\ lookup t n = Some (lookup_cell t c).
Proof.
  intros (n & i & -> & Hl). exists n. unfold lookup_cell. now rewrite Hl.
Qed.

(** ** Tables without empty name cells load to completion *)

Lemma for_each_get_or_insert_total (column : string) (get : db -> entity_table)
    (set : db -> entity_table -> db) (l : list (option string)) :
  (forall d t, get (set d t) = t) ->
  Forall (fun c : option string => c <> None) l ->
  forall w,
    fst (for_each l (fun name => get_or_insert column get set name ;; ret tt) w)
      = Return tt.
Proof.
  intros get_set. induction 1 as [|c l Hc _ IH]; intros w.
  - reflexivity.
  - destruct c as [n|]; [|congruence].
    destruct (get_or_insert_twice column get set get_set w n)
      as (i & w1 & E & _).
    specialize (IH w1).
    cbn [for_each]. unfold bind at 1. unfold bind at 1. rewrite E.
    exact IH.
Qed.

Lemma unique_present (l : list (option string)) :
  Forall (fun c : option string => c <> None) l ->
  Forall (fun c : option string => c <> None) (unique l).
Proof.
  intros H. apply Forall_forall. intros c Hc.
  apply (drop_duplicates_In (fun x => x)) in Hc.
  revert c Hc. now apply Forall_forall.
Qed.

Lemma main_completes (file : option db)
    (df0 : list row0) (df1 : list row1) (df2 : list row2) :
  names_present df0 df1 df2 ->
  ended (main file df0 df1 df2) = Return tt.
Proof.
  intros H. unfold names_present in H.
  apply Forall_app in H as [Hp H]. apply Forall_app in H as [Hl Hd].
  apply unique_present in Hp, Hl, Hd.
  destruct (main_populate_database file df0 df1 df2) as [-> _].
  unfold populate_database.
  pose proof (populate_database_conn_returns SPREADSHEET1_PATH
                SPREADSHEET2_PATH df0 df1 df2
                (connect (Some empty_db) (main_prelude file)) eq_refl) as R.
  assert (fst (populate_entities df0 df1 df2
                 (connect (Some empty_db) (main_prelude file))) = Return tt)
    as E.
  { unfold populate_entities.
    rewrite get_or_insert_product_eq, get_or_insert_location_eq,
      get_or_insert_driver_eq.
    unfold bind at 1. unfold print at 1. unfold bind at 1.
    match goal with |- context [for_each ?l ?f ?w0] =>
      pose proof (for_each_get_or_insert_total
          Products_ProductName Products set_Products l
                  (fun d t => eq_refl) Hp w0) as E1;
      destruct (for_each l f w0) as [[[]|e] wp]; [|discriminate E1] end.
    unfold bind at 1. unfold commit at 1. unfold bind at 1.
    match goal with |- context [for_each ?l ?f ?w0] =>
      pose proof (for_each_get_or_insert_total
          Locations_LocationName Locations set_Locations l
                  (fun d t => eq_refl) Hl w0) as E2;
      destruct (for_each l f w0) as [[[]|e] wl]; [|discriminate E2] end.
    unfold bind at 1. unfold commit at 1. unfold bind at 1.
    match goal with |- context [for_each ?l ?f ?w0] =>
      pose proof (for_each_get_or_insert_total
          Drivers_DriverIdentifier Drivers set_Drivers l
                  (fun d t => eq_refl) Hd w0) as E3;
      destruct (for_each l f w0) as [[[]|e] wd]; [|discriminate E3] end.
    reflexivity. }
  destruct (populate_entities df0 df1 df2
              (connect (Some empty_db) (main_prelude file)))
    as [[[]|e] w1]; [|discriminate E].
  cbv zeta in R. destruct R as (_ & _ & _ & _ & _ & ->). reflexivity.
Qed.

(** ** The claims about the two loops *)




(** C10, as amended.  For a table C whose shipment identifiers are all
    within the signed 64-bit range: once step 1 of [populate_database] has
    returned, on the connection that [populate_database] opens, no try
    statement of the Shipments loop raises: the loop is the loop of its try
    statements without the handlers, it returns normally, and it prints
    nothing. *)
Theorem shipment_handlers_unreachable (file : option db) (out : list event)
    (df0 : list row0) (df1 : list row1) (df2 : list row2) (w : world)
    (s2_path : string)
    (Hid : Forall (fun r => storable2 r = true) df2)
    (Hstep1 : populate_entities df0 df1 df2 (connect file out)
                = (Return tt, w)) :
  shipment_handlers_unused s2_path df2 w.
Proof.
  apply populate_entities_returns in Hstep1
    as (d1 & -> & _ & _ & _ & _ & Kl).
  unfold shipment_handlers_unused. cbv zeta.
  unfold print; cbn [snd stdout current committed foreign_keys].
  set (rows := drop_duplicates shipment_identifier2 Z.eqb df2).
  assert (Forall (fun r => storable2 r = true) rows) as Hrows
    by now apply drop_duplicates_Forall.
  assert (forall r, In r rows ->
            known (Locations d1) (origin_warehouse2 r) /\
            known (Locations d1) (destination_store2 r) /\
            known (Drivers d1) (driver_identifier2 r)) as K.
  { intros r Hr. apply Kl. now apply drop_duplicates_In in Hr. }
  match goal with |- context [for_each rows (shipment_iteration _) ?w0] =>
    pose proof (shipments_loop s2_path rows w0 eq_refl eq_refl K) as Ei;
    pose proof (shipments_loop_try rows w0 eq_refl Hrows K eq_refl) as Et
  end.
  cbv zeta in Ei, Et. cbn [current stdout] in Ei, Et.
  rewrite (shipment_events_storable s2_path rows Hrows), app_nil_r in Ei.
  rewrite Ei, Et. repeat split; reflexivity.
Qed.

(** ** The claims at concrete tables *)

(** The end-to-end scenario of the specification. *)
Example end_to_end_scenario :
  file_after (main None scenario_df0 scenario_df1 scenario_df2) =
  mk_db (mk_entity_table [(1, "Widget"%string)] 1)
        (mk_entity_table [(1, "WH1"%string); (2, "ST1"%string)] 2)
        (mk_entity_table [(1, "D1"%string)] 1)
        [mk_shipment 100 1 2 1]
        [mk_line_item 1 100 1 1 (Some "Yes"%string)]
        1.
Proof. reflexivity. Qed.

(** A name that is missing in table B ends the run in step 1, outside every
    try statement, and leaves the empty schema. *)
Example missing_name_is_fatal :
  let o := main None [] [mk_row1 1 None None] [] in
  ended o =
    Raise (IntegrityError
             "NOT NULL constraint failed: Products.ProductName") /\
  file_after o = empty_db.
Proof. split; reflexivity. Qed.

(** What the removal of the file at the start of [main] is for: a second
    [populate_database] on the file of the first adds the line items again. *)
Example populate_database_twice :
  let o := populate_database (Some empty_db) [] SPREADSHEET1_PATH
             SPREADSHEET2_PATH scenario_df0 scenario_df1 scenario_df2 in
  let o' := populate_database (Some (file_after o)) [] SPREADSHEET1_PATH
              SPREADSHEET2_PATH scenario_df0 scenario_df1 scenario_df2 in
  List.length (ShipmentLineItems (file_after o)) = 1%nat /\
  List.length (ShipmentLineItems (file_after o')) = 2%nat /\
  Shipments (file_after o') = Shipments (file_after o).
Proof. repeat split; reflexivity. Qed.

Lemma names_stay_unique_scenario :
  both names_unique (connect None []) /\
  both names_unique
    (snd (populate_database_conn SPREADSHEET1_PATH SPREADSHEET2_PATH
            scenario_df0 scenario_df1 scenario_df2 (connect None []))).
Proof.
  assert (both names_unique (connect None [])) as H
    by (repeat split; constructor).
  split; [exact H|].
  exact (proj1 (proj2 (proj2 (names_stay_unique (connect None []) H)))
           SPREADSHEET1_PATH SPREADSHEET2_PATH
           scenario_df0 scenario_df1 scenario_df2).
Defined.



(** Both handlers, on an empty store.  A record without product name: the
    NOT NULL constraint of Products raises the IntegrityError.  A table-C
    row with identifier 2^63: the driver raises the OverflowError after the
    row's two locations and its driver were inserted, and the rollback of
    the generic handler removes them. *)
Lemma row_errors_are_contained_both_handlers :
  (line_item_try SPREADSHEET1_PATH unnamed_row1 (connect None []) =
   (Raise (IntegrityError
             "NOT NULL constraint failed: Products.ProductName"),
    connect None []) /\
   line_item_iteration SPREADSHEET1_PATH unnamed_row1 (connect None []) =
   (Return tt,
    mk_world false empty_db empty_db
      [IntegrityErrorLineItem 100 SPREADSHEET1_PATH
         (IntegrityError
            "NOT NULL constraint failed: Products.ProductName")])) /\
  (shipment_try oversized_row2 (connect None []) =
   (Raise OVERFLOW,
    mk_world false empty_db
      (set_Drivers
         (set_Locations empty_db
            (mk_entity_table [(1, "A"%string); (2, "B"%string)] 2))
         (mk_entity_table [(1, "D1"%string)] 1))
      []) /\
   shipment_iteration SPREADSHEET2_PATH oversized_row2 (connect None []) =
   (Return tt,
    mk_world false empty_db empty_db
      [UnexpectedErrorShipment SPREADSHEET2_PATH OVERFLOW
         9223372036854775808])).
Proof.
  assert (line_item_try SPREADSHEET1_PATH unnamed_row1 (connect None [])
          = (Raise (IntegrityError
                      "NOT NULL constraint failed: Products.ProductName"),
             connect None [])) as E1 by reflexivity.
  assert (shipment_try oversized_row2 (connect None [])
          = (Raise OVERFLOW,
             mk_world false empty_db
               (set_Drivers
                  (set_Locations empty_db
                     (mk_entity_table [(1, "A"%string); (2, "B"%string)] 2))
                  (mk_entity_table [(1, "D1"%string)] 1))
               [])) as E2 by reflexivity.
  split; (split; [assumption|]).
  - exact (proj1 (proj1 (proj2 (row_errors_are_contained SPREADSHEET1_PATH
                                  SPREADSHEET2_PATH (connect None [])))
                    unnamed_row1 _ _ E1)).
  - exact (proj1 (proj1 (row_errors_are_contained SPREADSHEET1_PATH
                           SPREADSHEET2_PATH (connect None []))
                    oversized_row2 _ _ E2)).
Defined.




(** Table C whose first row has shipment identifier 2^63: step 1 returns,
    the try statement of the first iteration raises the OverflowError, and
    the generic handler prints its line. *)
Lemma shipment_handler_reached :
  let w := snd (populate_entities [] [] oversized_df2 (connect None [])) in
  populate_entities [] [] oversized_df2 (connect None []) = (Return tt, w) /\
  shipment_try oversized_row2 (snd (print PopulatingShipments w)) =
    (Raise OVERFLOW, snd (print PopulatingShipments w)) /\
  ~ shipment_handlers_unused SPREADSHEET2_PATH oversized_df2 w.
Proof.
  cbv zeta. split; [reflexivity|]. split; [reflexivity|].
  intros (_ & H & _). vm_compute in H. discriminate.
Qed.

Lemma shipment_handlers_unreachable_duplicated :
  let w := snd (populate_entities scenario_df0 scenario_df1 duplicated_df2
                  (connect None [])) in
  Forall (fun r => storable2 r = true) duplicated_df2 /\
  populate_entities scenario_df0 scenario_df1 duplicated_df2 (connect None [])
    = (Return tt, w) /\
  shipment_handlers_unused SPREADSHEET2_PATH duplicated_df2 w.
Proof.
  assert (Forall (fun r => storable2 r = true) duplicated_df2) as Hid
    by (repeat constructor).
  assert (populate_entities scenario_df0 scenario_df1 duplicated_df2
            (connect None []) =
          (Return tt,
           snd (populate_entities scenario_df0 scenario_df1 duplicated_df2
                  (connect None [])))) as E by reflexivity.
  split; [exact Hid|]. split; [exact E|].
  exact (shipment_handlers_unreachable None [] scenario_df0 scenario_df1
           duplicated_df2 _ SPREADSHEET2_PATH Hid E).
Defined.

(** ** Step 1 as a function of the store *)

Section ResolveNames.

Variable column : string.
Variable get : db -> entity_table.
Variable set : db -> entity_table -> db.
Hypothesis get_set : forall d t, get (set d t) = t.
Hypothesis set_set : forall d t t', set (set d t) t' = set d t'.
Hypothesis set_get : forall d, set d (get d) = d.

(** A loop of step 1 touches its own table, inside the transaction, and
    nothing else. *)
Lemma for_each_resolve_names (l : list (option string)) :
  forall w,
    for_each l (fun name => get_or_insert column get set name ;; ret tt) w =
    (fst (resolve_names column (get (current w)) l),
     mk_world (foreign_keys w) (committed w)
       (set (current w) (snd (resolve_names column (get (current w)) l)))
       (stdout w)).
Proof.
  induction l as [|c l IH]; intros w.
  - simpl. rewrite set_get. now destruct w.
  - cbn [for_each]. unfold bind at 1. unfold bind at 1.
    destruct c as [n|].
    + cbn [resolve_names].
      destruct (lookup (get (current w)) n) as [i|] eqn:Hl.
      * rewrite (get_or_insert_found column get set w n i Hl). unfold ret at 1.
        apply IH.
      * rewrite (get_or_insert_new column get set w n Hl); cbv zeta.
        unfold ret at 1. rewrite IH. cbn [current committed foreign_keys
          stdout]. now rewrite get_set, set_set.
    + rewrite get_or_insert_missing. simpl. rewrite set_get. now destruct w.
Qed.

End ResolveNames.

Lemma resolve_names_raises (column : string) (l : list (option string)) :
  forall t e,
    fst (resolve_names column t l) = Raise e -> e = NOT_NULL column.
Proof.
  induction l as [|[n|] l IH]; intros t e; simpl.
  - discriminate.
  - destruct (lookup t n); apply IH.
  - now intros [= <-].
Qed.

Lemma resolve_names_returns (column : string) (l : list (option string)) :
  forall t,
    fst (resolve_names column t l) = Return tt <->
    Forall (fun c : option string => c <> None) l.
Proof.
  induction l as [|[n|] l IH]; intros t; simpl.
  - split; [constructor | reflexivity].
  - rewrite Forall_cons_iff.
    assert (Some n <> None) as Hn by discriminate.
    destruct (lookup t n); rewrite IH; tauto.
  - split; [discriminate|].
    intros H. apply Forall_cons_iff in H as [H _]. congruence.
Qed.

(** The step 1 of the script, on a connection whose transaction is
    committed: how it ends and what the file holds then. *)
Lemma populate_entities_of (df0 : list row0) (df1 : list row1)
    (df2 : list row2) (w : world) :
  committed w = current w ->
  let o := populate_entities df0 df1 df2 w in
  fst o = fst (entities_of df0 df1 df2 (current w)) /\
  committed (snd o) = snd (entities_of df0 df1 df2 (current w)) /\
  (fst o = Return tt -> current (snd o) = committed (snd o)).
Proof.
  intros Hc. cbv zeta.
  remember (populate_entities df0 df1 df2 w) as o eqn:E.
  unfold populate_entities in E. unfold entities_of.
  fold (product_cells df0 df1) in E. fold (location_cells df0 df2) in E.
  fold (driver_cells df0 df2) in E.
  rewrite get_or_insert_product_eq, get_or_insert_location_eq,
    get_or_insert_driver_eq in E.
  unfold bind at 1 in E. unfold print at 1 in E. unfold bind at 1 in E.
  rewrite (for_each_resolve_names
      Products_ProductName Products set_Products) in E;
    [| reflexivity | reflexivity | intros []; reflexivity].
  cbn [current committed foreign_keys stdout fst snd] in E.
  destruct (resolve_names Products_ProductName (Products (current w))
              (unique (product_cells df0 df1))) as [[[]|e] tp];
    cbn [fst snd] in E;
    [|subst o; cbn [fst snd committed]; rewrite Hc; repeat split;
      discriminate].
  unfold bind at 1 in E. unfold commit at 1 in E. unfold bind at 1 in E.
  rewrite (for_each_resolve_names
      Locations_LocationName Locations set_Locations) in E;
    [| reflexivity | reflexivity | intros []; reflexivity].
  cbn [current committed foreign_keys stdout fst snd] in E.
  destruct (resolve_names Locations_LocationName
              (Locations (set_Products (current w) tp))
              (unique (location_cells df0 df2))) as [[[]|e] tl];
    cbn [fst snd] in E;
    [|subst o; cbn [fst snd committed]; repeat split; discriminate].
  unfold bind at 1 in E. unfold commit at 1 in E. unfold bind at 1 in E.
  rewrite (for_each_resolve_names
      Drivers_DriverIdentifier Drivers set_Drivers) in E;
    [| reflexivity | reflexivity | intros []; reflexivity].
  cbn [current committed foreign_keys stdout fst snd] in E.
  destruct (resolve_names Drivers_DriverIdentifier
              (Drivers (set_Locations (set_Products (current w) tp) tl))
              (unique (driver_cells df0 df2))) as [[[]|e] td];
    cbn [fst snd] in E;
    [|subst o; cbn [fst snd committed]; repeat split; discriminate].
  subst o. repeat split.
Qed.

(** [populate_database] and [main] as functions of the tables. *)
Lemma populate_database_load_of (file : option db) (out : list event)
    (s1_path s2_path : string)
    (df0 : list row0) (df1 : list row1) (df2 : list row2) :
  let o := populate_database file out s1_path s2_path df0 df1 df2 in
  let d := match file with Some d => d | None => empty_db end in
  ended o = fst (load_of df0 df1 df2 d) /\
  file_after o = snd (load_of df0 df1 df2 d).
Proof.
  cbv zeta. unfold populate_database, load_of.
  pose proof (populate_database_conn_returns s1_path s2_path df0 df1 df2
                (connect file out) eq_refl) as H.
  pose proof (populate_entities_of df0 df1 df2 (connect file out) eq_refl)
    as (Hr & Hd & Hcur). cbv zeta in Hr, Hd, Hcur.
  change (current (connect file out))
    with (match file with Some d => d | None => empty_db end) in Hr, Hd.
  destruct (populate_entities df0 df1 df2 (connect file out))
    as [[[]|e] w1]; cbn [fst snd] in *.
  - destruct H as (_ & _ & _ & _ & _ & ->).
    destruct (entities_of df0 df1 df2 _) as [[[]|e] d1]; cbn [fst snd] in *;
      [|discriminate].
    rewrite (Hcur eq_refl), Hd. split; reflexivity.
  - rewrite H.
    destruct (entities_of df0 df1 df2 _) as [[[]|e'] d1]; cbn [fst snd] in *;
      [discriminate|].
    injection Hr as ->. rewrite <- Hd. split; reflexivity.
Qed.

Lemma main_load_of (file : option db)
    (df0 : list row0) (df1 : list row1) (df2 : list row2) :
  ended (main file df0 df1 df2) = fst (load_of df0 df1 df2 empty_db) /\
  file_after (main file df0 df1 df2) = snd (load_of df0 df1 df2 empty_db).
Proof.
  destruct (main_populate_database file df0 df1 df2) as [-> ->].
  apply (populate_database_load_of (Some empty_db)).
Qed.

(** ** Further properties of the resolvers *)

Lemma has_id_false (i : Z) (t : entity_table) :
  ~ In i (map fst (et_rows t)) -> has_id i t = false.
Proof.
  intros H. unfold has_id. destruct (existsb _ _) eqn:E; [|reflexivity].
  apply existsb_exists in E as (r & Hin & Hr). exfalso. apply H.
  apply in_map_iff. exists r. split; [lia | exact Hin].
Qed.

Lemma has_id_true (i : Z) (n : string) (t : entity_table) :
  In (i, n) (et_rows t) -> has_id i t = true.
Proof.
  intros H. unfold has_id. apply existsb_exists. exists (i, n).
  split; [exact H | simpl; lia].
Qed.

Section ResolverRoundTrip.

Variable column : string.
Variable get : db -> entity_table.
Variable set : db -> entity_table -> db.
Hypothesis get_set : forall d t, get (set d t) = t.

Lemma get_or_insert_round_trip (w : world) (n : string) :
  exists i w1,
    get_or_insert column get set (Some n) w = (Return i, w1) /\
    lookup (get (current w1)) n = Some i /\
    (forall m j, lookup (get (current w)) m = Some j ->
                 lookup (get (current w1)) m = Some j) /\
    (lookup (get (current w)) n = None ->
     has_id i (get (current w)) = false) /\
    committed w1 = committed w /\ stdout w1 = stdout w.
Proof.
  destruct (lookup (get (current w)) n) as [i|] eqn:Hl.
  - exists i, w. rewrite (get_or_insert_found column get set w n i Hl).
    repeat split; auto. discriminate.
  - rewrite (get_or_insert_new column get set w n Hl); cbv zeta.
    eexists; eexists; split; [reflexivity|].
    cbn [current committed stdout]. rewrite get_set.
    destruct (get (current w)) as [rows s] eqn:Et; cbn [et_rows et_seq] in *.
    repeat split.
    + now apply (lookup_insert_same rows s).
    + intros m j Hm. now apply (lookup_insert_other rows s).
    + intros _. apply has_id_false. apply autoincrement_rowid_fresh.
Qed.

End ResolverRoundTrip.

(** X1.  Each resolver, called with a name on any state of the connection,
    returns an identifier under which the table then has that name; the
    identifier of every other name of the table is what it was; the
    identifier given to a name that was not in the table is the key of no
    row that was there; and the call commits and prints nothing. *)
Theorem resolver_round_trip (w : world) (n : string) :
  (exists i w1,
     get_or_insert_product (Some n) w = (Return i, w1) /\
     lookup (Products (current w1)) n = Some i /\
     (forall m j, lookup (Products (current w)) m = Some j ->
                  lookup (Products (current w1)) m = Some j) /\
     (lookup (Products (current w)) n = None ->
      has_id i (Products (current w)) = false) /\
     committed w1 = committed w /\ stdout w1 = stdout w) /\
  (exists i w1,
     get_or_insert_location (Some n) w = (Return i, w1) /\
     lookup (Locations (current w1)) n = Some i /\
     (forall m j, lookup (Locations (current w)) m = Some j ->
                  lookup (Locations (current w1)) m = Some j) /\
     (lookup (Locations (current w)) n = None ->
      has_id i (Locations (current w)) = false) /\
     committed w1 = committed w /\ stdout w1 = stdout w) /\
  (exists i w1,
     get_or_insert_driver (Some n) w = (Return i, w1) /\
     lookup (Drivers (current w1)) n = Some i /\
     (forall m j, lookup (Drivers (current w)) m = Some j ->
                  lookup (Drivers (current w1)) m = Some j) /\
     (lookup (Drivers (current w)) n = None ->
      has_id i (Drivers (current w)) = false) /\
     committed w1 = committed w /\ stdout w1 = stdout w).
Proof.
  rewrite get_or_insert_product_eq, get_or_insert_location_eq,
    get_or_insert_driver_eq.
  split; [|split].
  - apply (get_or_insert_round_trip
      Products_ProductName Products set_Products). reflexivity.
  - apply (get_or_insert_round_trip
      Locations_LocationName Locations set_Locations). reflexivity.
  - apply (get_or_insert_round_trip
      Drivers_DriverIdentifier Drivers set_Drivers). reflexivity.
Qed.

(** ** Primary keys, and rows that stay *)

Lemma insert_name_keys (column : string) (t t' : entity_table)
    (name : option string) (i : Z) :
  insert_name column t name = inr (t', i) ->
  NoDup (map fst (et_rows t)) -> NoDup (map fst (et_rows t')).
Proof.
  unfold insert_name. destruct name as [n|]; [|discriminate].
  destruct (existsb _ _); [discriminate|].
  intros [= <- <-] H. simpl. rewrite map_app. simpl.
  apply NoDup_app; [exact H | repeat constructor; simpl; tauto|].
  intros x Hx [<-|[]]. now apply (autoincrement_rowid_fresh _ _ Hx).
Qed.

Lemma insert_name_appends (column : string) (t t' : entity_table)
    (name : option string)
    (i : Z) :
  insert_name column t name = inr (t', i) ->
  exists n, name = Some n /\ et_rows t' = et_rows t ++ [(i, n)].
Proof.
  unfold insert_name. destruct name as [n|]; [|discriminate].
  destruct (existsb _ _); [discriminate|].
  intros [= <- <-]. eauto.
Qed.

Lemma insert_or_ignore_shipment_rows (fk : bool) (d d' : db)
    (id : Z) (o dst dr : Z) :
  insert_or_ignore_shipment fk d id o dst dr = inr d' ->
  Shipments d' = Shipments d \/
  exists z, has_shipment z d = false /\
            Shipments d' = Shipments d ++ [mk_shipment z o dst dr].
Proof.
  unfold insert_or_ignore_shipment.
  destruct (negb (int64b id)); [discriminate|].
  destruct (has_shipment _ d) eqn:E; [intros [= <-]; now left|].
  destruct (fk && _); [discriminate|].
  intros [= <-]. right. eauto.
Qed.

Lemma insert_line_item_key (fk : bool) (d d' : db)
    (id : Z) (p q : Z) (st : option string) :
  insert_line_item fk d id p q st = inr d' ->
  exists li,
    ShipmentLineItems d' = ShipmentLineItems d ++ [li] /\
    ~ In (LineItemID li) (map LineItemID (ShipmentLineItems d)).
Proof.
  unfold insert_line_item.
  destruct (negb (int64b id)); [discriminate|].
  destruct (fk && _); [discriminate|].
  intros [= <-]. eexists. split; [reflexivity|].
  simpl. apply autoincrement_rowid_fresh.
Qed.

Lemma NoDup_snoc {A} (l : list A) (x : A) :
  NoDup l -> ~ In x l -> NoDup (l ++ [x]).
Proof.
  intros H Hx. apply NoDup_app; [exact H | repeat constructor; simpl; tauto|].
  intros y Hy [<-|[]]. contradiction.
Qed.

Lemma populate_database_keys (file : option db) (out : list event)
    (s1_path s2_path : string)
    (df0 : list row0) (df1 : list row1) (df2 : list row2) :
  keys_unique (match file with Some d0 => d0 | None => empty_db end) ->
  keys_unique
    (file_after (populate_database file out s1_path s2_path df0 df1 df2)).
Proof.
  apply populate_database_keeps.
  - intros d name t i E (Hp & Hl & Hd & Hs & Hi). repeat split; simpl; auto.
    exact (insert_name_keys _ _ _ _ _ E Hp).
  - intros d name t i E (Hp & Hl & Hd & Hs & Hi). repeat split; simpl; auto.
    exact (insert_name_keys _ _ _ _ _ E Hl).
  - intros d name t i E (Hp & Hl & Hd & Hs & Hi). repeat split; simpl; auto.
    exact (insert_name_keys _ _ _ _ _ E Hd).
  - intros fk d id o dst dr d' E (Hp & Hl & Hd & Hs & Hi).
    pose proof (insert_or_ignore_shipment_frame _ _ _ _ _ _ _ E)
      as (Ep & El & Ed & Ei & _).
    unfold keys_unique. rewrite Ep, El, Ed, Ei. repeat split; auto.
    apply insert_or_ignore_shipment_rows in E as [->|(z & Hz & ->)];
      [exact Hs|].
    rewrite map_app. simpl. apply NoDup_snoc; [exact Hs|].
    now apply has_shipment_false.
  - intros fk d id p st d' E (Hp & Hl & Hd & Hs & Hi).
    pose proof (insert_line_item_frame _ _ _ _ _ _ _ E)
      as (Ep & El & Ed & Es & _).
    unfold keys_unique. rewrite Ep, El, Ed, Es. repeat split; auto.
    apply insert_line_item_key in E as (li & -> & Hli).
    rewrite map_app. simpl. now apply NoDup_snoc.
Qed.

Lemma main_keys_unique (file : option db)
    (df0 : list row0) (df1 : list row1) (df2 : list row2) :
  keys_unique (file_after (main file df0 df1 df2)).
Proof.
  destruct (main_populate_database file df0 df1 df2) as [_ ->].
  apply populate_database_keys. repeat split; constructor.
Qed.

(** X2.  [populate_database] keeps the primary keys of all five tables
    unique: when no two rows of a table of the file it finds share their
    key, the same holds of the file it leaves, however the call ends.  The
    file that [main] leaves has unique keys. *)
Theorem primary_keys_stay_unique (file : option db) (out : list event)
    (s1_path s2_path : string)
    (df0 : list row0) (df1 : list row1) (df2 : list row2)
    (H : keys_unique (match file with Some d0 => d0 | None => empty_db end)) :
  keys_unique
    (file_after (populate_database file out s1_path s2_path df0 df1 df2)) /\
  keys_unique (file_after (main file df0 df1 df2)).
Proof.
  split; [now apply populate_database_keys | apply main_keys_unique].
Qed.

(** X3.  [populate_database] only appends: each of the five tables of the
    file it leaves is the table of the file it found, row for row, followed
    by the rows it added.  It updates and deletes nothing, however it
    ends. *)
Theorem populate_database_only_appends (file : option db) (out : list event)
    (s1_path s2_path : string)
    (df0 : list row0) (df1 : list row1) (df2 : list row2) :
  extends (match file with Some d0 => d0 | None => empty_db end)
    (file_after (populate_database file out s1_path s2_path df0 df1 df2)).
Proof.
  apply (populate_database_keeps
           (extends (match file with Some d0 => d0 | None => empty_db end))).
  - intros d name t i E (Hp & Hl & Hd & Hs & Hi). repeat split; simpl; auto.
    destruct Hp as (l & Hp).
    apply insert_name_appends in E as (n & _ & ->).
    exists (l ++ [(i, n)]). now rewrite Hp, app_assoc.
  - intros d name t i E (Hp & Hl & Hd & Hs & Hi). repeat split; simpl; auto.
    destruct Hl as (l & Hl).
    apply insert_name_appends in E as (n & _ & ->).
    exists (l ++ [(i, n)]). now rewrite Hl, app_assoc.
  - intros d name t i E (Hp & Hl & Hd & Hs & Hi). repeat split; simpl; auto.
    destruct Hd as (l & Hd).
    apply insert_name_appends in E as (n & _ & ->).
    exists (l ++ [(i, n)]). now rewrite Hd, app_assoc.
  - intros fk d id o dst dr d' E (Hp & Hl & Hd & Hs & Hi).
    pose proof (insert_or_ignore_shipment_frame _ _ _ _ _ _ _ E)
      as (Ep & El & Ed & Ei & _).
    unfold extends. rewrite Ep, El, Ed, Ei. repeat split; auto.
    destruct Hs as (l & Hs).
    apply insert_or_ignore_shipment_rows in E as [->|(z & _ & ->)].
    + now exists l.
    + exists (l ++ [mk_shipment z o dst dr]). now rewrite Hs, app_assoc.
  - intros fk d id p st d' E (Hp & Hl & Hd & Hs & Hi).
    pose proof (insert_line_item_frame _ _ _ _ _ _ _ E)
      as (Ep & El & Ed & Es & _).
    unfold extends. rewrite Ep, El, Ed, Es. repeat split; auto.
    destruct Hi as (l & Hi).
    apply insert_line_item_key in E as (li & -> & _).
    exists (l ++ [li]). now rewrite Hi, app_assoc.
  - repeat split; exists []; now rewrite app_nil_r.
Qed.

(** ** How step 1 ends and what it leaves *)

Lemma unique_present_iff (l : list (option string)) :
  Forall (fun c : option string => c <> None) (unique l) <->
  Forall (fun c : option string => c <> None) l.
Proof.
  split; [|apply unique_present].
  intros H. apply Forall_forall. intros c Hc. apply unique_In in Hc.
  revert c Hc. now apply Forall_forall.
Qed.

Lemma names_present_cells (df0 : list row0) (df1 : list row1)
    (df2 : list row2) :
  names_present df0 df1 df2 <->
  Forall (fun c : option string => c <> None) (product_cells df0 df1) /\
  Forall (fun c : option string => c <> None) (location_cells df0 df2) /\
  Forall (fun c : option string => c <> None) (driver_cells df0 df2).
Proof.
  unfold names_present.
  fold (product_cells df0 df1). fold (location_cells df0 df2).
  fold (driver_cells df0 df2).
  now rewrite !Forall_app.
Qed.

Lemma forallb_is_present (l : list (option string)) :
  forallb is_present l = true <->
  Forall (fun c : option string => c <> None) l.
Proof.
  rewrite forallb_forall, Forall_forall.
  split; intros H c Hc; specialize (H c Hc); destruct c; simpl in *;
    congruence.
Qed.

(** How step 1 ends on a store, phase by phase. *)
Lemma entities_of_cases (df0 : list row0) (df1 : list row1)
    (df2 : list row2) (d : db) :
  let present := Forall (fun c : option string => c <> None) in
  let tp := snd (resolve_names Products_ProductName (Products d)
                   (unique (product_cells df0 df1))) in
  let tl := snd (resolve_names Locations_LocationName (Locations d)
                   (unique (location_cells df0 df2))) in
  let td := snd (resolve_names Drivers_DriverIdentifier (Drivers d)
                   (unique (driver_cells df0 df2))) in
  (~ present (product_cells df0 df1) /\
   entities_of df0 df1 df2 d = (Raise (NOT_NULL Products_ProductName), d)) \/
  (present (product_cells df0 df1) /\ ~ present (location_cells df0 df2) /\
   entities_of df0 df1 df2 d =
     (Raise (NOT_NULL Locations_LocationName), set_Products d tp)) \/
  (present (product_cells df0 df1) /\ present (location_cells df0 df2) /\
   ~ present (driver_cells df0 df2) /\
   entities_of df0 df1 df2 d =
     (Raise (NOT_NULL Drivers_DriverIdentifier),
      set_Locations (set_Products d tp) tl)) \/
  (present (product_cells df0 df1) /\ present (location_cells df0 df2) /\
   present (driver_cells df0 df2) /\
   entities_of df0 df1 df2 d =
     (Return tt, set_Drivers (set_Locations (set_Products d tp) tl) td)).
Proof.
  cbv zeta. unfold entities_of.
  pose proof (resolve_names_returns Products_ProductName
                (unique (product_cells df0 df1)) (Products d)) as Rp.
  pose proof (resolve_names_raises Products_ProductName
                (unique (product_cells df0 df1)) (Products d)) as Ep.
  rewrite unique_present_iff in Rp.
  destruct (resolve_names Products_ProductName (Products d)
              (unique (product_cells df0 df1)))
    as [[[]|e] tp]; cbn [fst snd] in *.
  2: { left. rewrite (Ep e eq_refl). split; [|reflexivity].
       intros H. apply Rp in H. discriminate. }
  right.
  change (Locations (set_Products d tp)) with (Locations d).
  pose proof (resolve_names_returns Locations_LocationName
                (unique (location_cells df0 df2)) (Locations d)) as Rl.
  pose proof (resolve_names_raises Locations_LocationName
                (unique (location_cells df0 df2)) (Locations d)) as El.
  rewrite unique_present_iff in Rl.
  destruct (resolve_names Locations_LocationName (Locations d)
              (unique (location_cells df0 df2)))
    as [[[]|e] tl]; cbn [fst snd] in *.
  2: { left. rewrite (El e eq_refl). split; [now apply Rp|].
       split; [|reflexivity]. intros H. apply Rl in H. discriminate. }
  right.
  change (Drivers (set_Locations (set_Products d tp) tl)) with (Drivers d).
  pose proof (resolve_names_returns Drivers_DriverIdentifier
                (unique (driver_cells df0 df2)) (Drivers d)) as Rd.
  pose proof (resolve_names_raises Drivers_DriverIdentifier
                (unique (driver_cells df0 df2)) (Drivers d)) as Ed.
  rewrite unique_present_iff in Rd.
  destruct (resolve_names Drivers_DriverIdentifier (Drivers d)
              (unique (driver_cells df0 df2)))
    as [[[]|e] td]; cbn [fst snd] in *.
  2: { left. rewrite (Ed e eq_refl). split; [now apply Rp|].
       split; [now apply Rl|].
       split; [|reflexivity]. intros H. apply Rd in H. discriminate. }
  right. repeat split; [now apply Rp | now apply Rl | now apply Rd].
Qed.

(** X4.  A full load runs to completion exactly when no name cell of the
    three tables is empty.  Otherwise it ends in step 1 with the
    IntegrityError of the NOT NULL constraint of the first name column in
    which a loop of step 1 meets an empty cell, outside every try
    statement, and the file it leaves has no driver, no shipment and no
    line item. *)
Theorem load_completes_iff (file : option db)
    (df0 : list row0) (df1 : list row1) (df2 : list row2) :
  (ended (main file df0 df1 df2) = Return tt <->
   names_present df0 df1 df2) /\
  (forall e,
     ended (main file df0 df1 df2) = Raise e ->
     e = NOT_NULL (first_empty_column df0 df1 df2) /\
     Drivers (file_after (main file df0 df1 df2)) = empty_table /\
     Shipments (file_after (main file df0 df1 df2)) = [] /\
     ShipmentLineItems (file_after (main file df0 df1 df2)) = []).
Proof.
  destruct (main_load_of file df0 df1 df2) as [-> ->].
  rewrite names_present_cells. unfold load_of, first_empty_column.
  destruct (entities_of_cases df0 df1 df2 empty_db)
    as [(Np & ->)|[(Hp & Nl & ->)|[(Hp & Hl & Nd & ->)|(Hp & Hl & Hd & ->)]]];
    cbn [fst snd].
  - split; [split; [discriminate | tauto]|].
    intros e [= <-].
    destruct (forallb is_present (product_cells df0 df1)) eqn:E;
      [apply forallb_is_present in E; contradiction|].
    repeat split.
  - split; [split; [discriminate | tauto]|].
    intros e [= <-].
    apply forallb_is_present in Hp. rewrite Hp.
    destruct (forallb is_present (location_cells df0 df2)) eqn:E;
      [apply forallb_is_present in E; contradiction|].
    repeat split.
  - split; [split; [discriminate | tauto]|].
    intros e [= <-].
    apply forallb_is_present in Hp, Hl. rewrite Hp, Hl.
    repeat split.
  - split; [tauto | discriminate].
Qed.

(** ** The entity tables after step 1 *)

Lemma enumerate_app (k : Z) (a b : list string) :
  enumerate k (a ++ b) =
  enumerate k a ++ enumerate (k + Z.of_nat (List.length a)) b.
Proof.
  revert k. induction a as [|n a IH]; intros k.
  - simpl. now rewrite Z.add_0_r.
  - cbn [app enumerate List.length]. rewrite IH. simpl app. do 3 f_equal. lia.
Qed.

Lemma enumerate_ids (k : Z) (l : list string) (x : Z) :
  In x (map fst (enumerate k l)) -> k <= x < k + Z.of_nat (List.length l).
Proof.
  revert k. induction l as [|n l IH]; intros k; simpl; [tauto|].
  intros [<-|H]; [lia|]. apply IH in H. lia.
Qed.

Lemma enumerate_names (k : Z) (l : list string) :
  map snd (enumerate k l) = l.
Proof.
  revert k. induction l as [|n l IH]; intros k; simpl; [reflexivity|].
  now rewrite IH.
Qed.

Lemma new_rowid_le (ids : list Z) (k : Z) :
  0 <= k -> (forall x, In x ids -> x <= k) -> new_rowid ids <= k + 1.
Proof.
  intros Hk H. destruct ids as [|i t]; simpl; [lia|].
  assert (fold_right Z.max i t <= k); [|lia].
  induction t as [|y t IH]; simpl.
  - apply H. now left.
  - assert (y <= k) by (apply H; simpl; tauto).
    assert (fold_right Z.max i t <= k); [|lia].
    apply IH. intros x [<-|Hx]; apply H; simpl; tauto.
Qed.

Lemma autoincrement_rowid_next (ids : list Z) (k : Z) :
  0 <= k -> (forall x, In x ids -> x <= k) ->
  autoincrement_rowid ids k = k + 1.
Proof.
  intros Hk H. unfold autoincrement_rowid.
  pose proof (new_rowid_le ids k Hk H). lia.
Qed.

Lemma lookup_absent (rows : list (Z * string)) (s : Z) (n : string) :
  ~ In n (map snd rows) -> lookup (mk_entity_table rows s) n = None.
Proof.
  intros H. apply lookup_None. simpl.
  destruct (existsb (has_name n) rows) eqn:E; [|reflexivity].
  apply existsb_exists in E as ([i m] & Hin & Hm).
  unfold has_name in Hm; simpl in Hm. apply String.eqb_eq in Hm. subst m.
  exfalso. apply H. apply in_map_iff. now exists (i, n).
Qed.

(** Names that are new to a table numbered from 1 are numbered on, in the
    order in which the loop meets them. *)
Lemma resolve_names_table_of (column : string) (l : list (option string)) :
  forall names0,
    NoDup l ->
    (forall n, In (Some n) l -> ~ In n names0) ->
    fst (resolve_names column (table_of names0) l) = Return tt ->
    snd (resolve_names column (table_of names0) l) =
    table_of (names0 ++ present_names l).
Proof.
  induction l as [|[n|] l IH]; intros names0 Hnd Hnew; cbn [resolve_names].
  - intros _. simpl. now rewrite app_nil_r.
  - apply NoDup_cons_iff in Hnd as [Hn Hnd].
    assert (lookup (table_of names0) n = None) as ->.
    { apply lookup_absent. rewrite enumerate_names. apply Hnew. now left. }
    cbv zeta.
    assert (autoincrement_rowid (map fst (et_rows (table_of names0)))
              (et_seq (table_of names0)) =
            Z.of_nat (List.length names0) + 1) as ->.
    { apply autoincrement_rowid_next; cbn [table_of et_rows et_seq]; [lia|].
      intros x Hx. apply enumerate_ids in Hx. lia. }
    cbn [table_of et_rows et_seq].
    assert (mk_entity_table
              (enumerate 1 names0 ++ [(Z.of_nat (List.length names0) + 1, n)])
              (Z.of_nat (List.length names0) + 1) =
            table_of (names0 ++ [n])) as ->.
    { unfold table_of. rewrite enumerate_app, length_app.
      cbn [enumerate List.length].
      replace (1 + Z.of_nat (List.length names0))
        with (Z.of_nat (List.length names0) + 1) by lia.
      replace (Z.of_nat (List.length names0 + 1))
        with (Z.of_nat (List.length names0) + 1) by lia.
      reflexivity. }
    intros H. rewrite IH; auto.
    + simpl. now rewrite <- app_assoc.
    + intros m Hm Hin. apply in_app_iff in Hin as [Hin|[<-|[]]].
      * apply (Hnew m); [now right | exact Hin].
      * contradiction.
  - discriminate.
Qed.

Lemma resolve_names_known (column : string) (l : list (option string)) :
  forall t,
    fst (resolve_names column t l) = Return tt ->
    (forall c, In c l -> known (snd (resolve_names column t l)) c) /\
    (forall n i, lookup t n = Some i ->
                 lookup (snd (resolve_names column t l)) n = Some i).
Proof.
  induction l as [|[n|] l IH]; intros t; cbn [resolve_names].
  - intros _. split; [contradiction | auto].
  - destruct (lookup t n) as [i|] eqn:Hl.
    + intros H. destruct (IH t H) as (K & Hm). split; [|exact Hm].
      intros c [<-|Hc]; [|now apply K]. exists n, i. auto.
    + cbv zeta. intros H.
      destruct (IH _ H) as (K & Hm). destruct t as [rows s]; simpl in *.
      split.
      * intros c [<-|Hc]; [|now apply K].
        eexists n, _. split; [reflexivity|]. apply Hm.
        now apply (lookup_insert_same rows s).
      * intros m j Hj. apply Hm. now apply (lookup_insert_other rows s).
  - discriminate.
Qed.

Lemma resolve_names_known_id (column : string) (l : list (option string))
    (t : entity_table) :
  (forall c, In c l -> known t c) ->
  resolve_names column t l = (Return tt, t).
Proof.
  induction l as [|c l IH]; intros K; [reflexivity|].
  destruct (K c (or_introl eq_refl)) as (n & i & -> & Hl).
  cbn [resolve_names]. rewrite Hl. apply IH. intros c Hc. apply K. now right.
Qed.

Lemma unique_NoDup (l : list (option string)) : NoDup (unique l).
Proof.
  pose proof (drop_duplicates_NoDup (fun x : option string => x)
                (cell_eqb String.eqb)
                (fun a b => cell_eqb_eq String.eqb a b String.eqb_eq) l) as H.
  now rewrite map_id in H.
Qed.

Lemma resolve_names_fresh (column : string) (l : list (option string)) :
  Forall (fun c : option string => c <> None) l ->
  snd (resolve_names column empty_table (unique l)) =
  table_of (present_names (unique l)).
Proof.
  intros H.
  apply (resolve_names_table_of column (unique l) []).
  - apply unique_NoDup.
  - intros n _ [].
  - apply resolve_names_returns. now apply unique_present.
Qed.

(** The store after a load that ran to completion, by way of step 1. *)
Lemma main_store (file : option db)
    (df0 : list row0) (df1 : list row1) (df2 : list row2) :
  ended (main file df0 df1 df2) = Return tt ->
  let tp := table_of (present_names (unique (product_cells df0 df1))) in
  let tl := table_of (present_names (unique (location_cells df0 df2))) in
  let td := table_of (present_names (unique (driver_cells df0 df2))) in
  file_after (main file df0 df1 df2) =
  fold_left store_line_item df1
    (fold_left store_shipment
       (drop_duplicates shipment_identifier2 Z.eqb df2)
       (mk_db tp tl td [] [] 0)).
Proof.
  destruct (main_load_of file df0 df1 df2) as [-> ->].
  unfold load_of.
  destruct (entities_of_cases df0 df1 df2 empty_db)
    as [(Np & ->)|[(Hp & Nl & ->)|[(Hp & Hl & Nd & ->)|(Hp & Hl & Hd & ->)]]];
    cbn [fst snd]; try discriminate.
  intros _. cbv zeta.
  change (Products empty_db) with empty_table.
  change (Locations empty_db) with empty_table.
  change (Drivers empty_db) with empty_table.
  now rewrite !resolve_names_fresh.
Qed.

(** X5.  After a load that ran to completion, Products holds the distinct
    product names of tables A and B, in order of first appearance (all of
    table A before table B), numbered 1, 2, ... without gap; Locations holds
    in the same way the origins of A, the destinations of A, the origins of
    C and the destinations of C; Drivers the drivers of A and of C. *)
Theorem entity_tables_after_load (file : option db)
    (df0 : list row0) (df1 : list row1) (df2 : list row2)
    (Hend : ended (main file df0 df1 df2) = Return tt) :
  let d := file_after (main file df0 df1 df2) in
  Products d = table_of (present_names (unique (product_cells df0 df1))) /\
  Locations d = table_of (present_names (unique (location_cells df0 df2))) /\
  Drivers d = table_of (present_names (unique (driver_cells df0 df2))).
Proof.
  cbv zeta. rewrite (main_store file df0 df1 df2 Hend). cbv zeta.
  match goal with |- context [fold_left store_line_item df1 ?d2] =>
    destruct (fold_store_line_item_frame df1 d2) as (-> & -> & -> & _) end.
  match goal with |- context [fold_left store_shipment ?l ?d1] =>
    destruct (fold_store_shipment_frame l d1) as (-> & -> & -> & _) end.
  repeat split.
Qed.

(** X6.  A load that fails keeps what the phases of step 1 before the
    failing one have committed, and nothing of the failing phase: with an
    empty product cell the file is the empty schema; with all products but
    an empty location cell it holds the products and nothing else; with an
    empty driver cell only, it holds the products and the locations. *)
Theorem failed_load_keeps_committed_phases (file : option db)
    (df0 : list row0) (df1 : list row1) (df2 : list row2) :
  let present := Forall (fun c : option string => c <> None) in
  let tp := table_of (present_names (unique (product_cells df0 df1))) in
  let tl := table_of (present_names (unique (location_cells df0 df2))) in
  (~ present (product_cells df0 df1) ->
   file_after (main file df0 df1 df2) = empty_db) /\
  (present (product_cells df0 df1) -> ~ present (location_cells df0 df2) ->
   file_after (main file df0 df1 df2) = set_Products empty_db tp) /\
  (present (product_cells df0 df1) -> present (location_cells df0 df2) ->
   ~ present (driver_cells df0 df2) ->
   file_after (main file df0 df1 df2) =
   set_Locations (set_Products empty_db tp) tl).
Proof.
  cbv zeta. destruct (main_load_of file df0 df1 df2) as [_ ->].
  unfold load_of.
  destruct (entities_of_cases df0 df1 df2 empty_db)
    as [(Np & ->)|[(Hp & Nl & ->)|[(Hp & Hl & Nd & ->)|(Hp & Hl & Hd & ->)]]];
    cbn [fst snd].
  - repeat split; intros; tauto.
  - change (Products empty_db) with empty_table.
    rewrite (resolve_names_fresh _ _ Hp). repeat split; intros; tauto.
  - change (Products empty_db) with empty_table.
    change (Locations empty_db) with empty_table.
    rewrite (resolve_names_fresh _ _ Hp), (resolve_names_fresh _ _ Hl).
    repeat split; intros; tauto.
  - repeat split; intros; tauto.
Qed.

(** ** References and LineItemIDs after a load *)

Lemma known_has_id (t : entity_table) (c : option string) :
  known t c -> has_id (lookup_cell t c) t = true.
Proof.
  intros K. apply known_lookup_cell in K as (n & _ & Hl).
  apply lookup_In in Hl. now apply (has_id_true _ n).
Qed.

Lemma store_shipment_rows (d : db) (r : row2) :
  Shipments (store_shipment d r) = Shipments d \/
  exists z,
    has_shipment z d = false /\
    Shipments (store_shipment d r) =
    Shipments d ++
    [mk_shipment z (lookup_cell (Locations d) (origin_warehouse2 r))
       (lookup_cell (Locations d) (destination_store2 r))
       (lookup_cell (Drivers d) (driver_identifier2 r))].
Proof.
  unfold store_shipment.
  destruct (insert_or_ignore_shipment _ _ _ _ _ _) as [e|d'] eqn:E.
  - now left.
  - now apply insert_or_ignore_shipment_rows in E.
Qed.

Lemma fold_store_shipment_references (rows : list row2) :
  forall d,
    (forall r, In r rows ->
       known (Locations d) (origin_warehouse2 r) /\
       known (Locations d) (destination_store2 r) /\
       known (Drivers d) (driver_identifier2 r)) ->
    Forall (shipment_references d) (Shipments d) ->
    Forall (shipment_references d)
      (Shipments (fold_left store_shipment rows d)).
Proof.
  induction rows as [|r rows IH]; intros d K H; cbn [fold_left].
  - exact H.
  - destruct (store_shipment_frame d r) as (_ & El & Ed & _).
    destruct (K r (or_introl eq_refl)) as (Ka & Kb & Kc).
    assert (forall s, shipment_references (store_shipment d r) s <->
                      shipment_references d s) as Hext.
    { intros s. unfold shipment_references. now rewrite El, Ed. }
    eapply Forall_impl; [intros s; apply Hext|].
    apply IH.
    + intros r' Hr'. rewrite El, Ed. apply K. now right.
    + eapply Forall_impl; [intros s; apply Hext|].
      destruct (store_shipment_rows d r) as [->|(z & _ & ->)]; [exact H|].
      apply Forall_app. split; [exact H|].
      repeat constructor; simpl; now apply known_has_id.
Qed.

Lemma Forall2_Forall_r {A B} (R : A -> B -> Prop) (P : B -> Prop)
    (l : list A) (l' : list B) :
  (forall a b, R a b -> P b) -> Forall2 R l l' -> Forall P l'.
Proof.
  intros H. induction 1; constructor; eauto.
Qed.

(** X7.  After a load that ran to completion, the three foreign keys of
    every Shipments row are keys of rows of Locations and of Drivers, and
    the ProductID of every line item is the key of a row of Products,
    although the connection never checks foreign keys. *)
Theorem references_exist_after_load (file : option db)
    (df0 : list row0) (df1 : list row1) (df2 : list row2)
    (Hend : ended (main file df0 df1 df2) = Return tt) :
  references_exist (file_after (main file df0 df1 df2)).
Proof.
  split.
  - destruct (main_returns file df0 df1 df2 Hend)
      as (d1 & (_ & Kl) & Hs & _ & -> & _).
    set (rows := drop_duplicates shipment_identifier2 Z.eqb df2).
    destruct (fold_store_line_item_frame df1
                (fold_left store_shipment rows d1)) as (_ & El & Ed & ->).
    destruct (fold_store_shipment_frame rows d1) as (_ & El' & Ed' & _).
    assert (Forall (shipment_references d1)
              (Shipments (fold_left store_shipment rows d1))) as H.
    { apply fold_store_shipment_references.
      - intros r Hr. apply Kl.
        now apply (drop_duplicates_In shipment_identifier2) in Hr.
      - rewrite Hs. constructor. }
    eapply Forall_impl; [|exact H].
    intros s. unfold shipment_references. now rewrite El, Ed, El', Ed'.
  - destruct (main_line_items file df0 df1 df2 Hend) as (Hf & _).
    eapply Forall2_Forall_r; [|exact Hf].
    intros r li (_ & (p & _ & Hl) & _). cbv beta.
    apply lookup_In in Hl. now apply (has_id_true _ p).
Qed.

Lemma rowids_from_snoc (k : Z) (n : nat) :
  rowids_from k (S n) = rowids_from k n ++ [k + Z.of_nat n].
Proof.
  revert k. induction n as [|n IH]; intros k.
  - simpl. now rewrite Z.add_0_r.
  - cbn [rowids_from]. cbn [rowids_from] in IH. rewrite IH.
    cbn [app]. do 3 f_equal. lia.
Qed.

Lemma rowids_from_bound (k : Z) (n : nat) (x : Z) :
  In x (rowids_from k n) -> x < k + Z.of_nat n.
Proof.
  revert k. induction n as [|n IH]; intros k; cbn [rowids_from In];
    [tauto|].
  intros [<-|H]; [lia|]. apply IH in H. lia.
Qed.

(** A table-B row whose identifier the driver binds takes the next
    LineItemID; a row whose identifier it refuses takes none. *)
Lemma fold_store_line_item_ids (rows : list row1) :
  forall d n,
    map LineItemID (ShipmentLineItems d) = rowids_from 1 n ->
    ShipmentLineItems_seq d = Z.of_nat n ->
    let d' := fold_left store_line_item rows d in
    let n' := (n + List.length (filter storable1 rows))%nat in
    map LineItemID (ShipmentLineItems d') = rowids_from 1 n' /\
    ShipmentLineItems_seq d' = Z.of_nat n'.
Proof.
  induction rows as [|r rows IH]; intros d n Hids Hseq; cbv zeta;
    cbn [fold_left filter].
  - simpl. now rewrite Nat.add_0_r.
  - destruct (storable1 r) eqn:Ez; unfold storable1 in Ez.
    + assert (map LineItemID (ShipmentLineItems (store_line_item d r)) =
              rowids_from 1 (S n) /\
              ShipmentLineItems_seq (store_line_item d r) = Z.of_nat (S n))
        as (Hids' & Hseq').
      { unfold store_line_item, insert_line_item. rewrite Ez.
        cbn [negb andb set_ShipmentLineItems ShipmentLineItems
             ShipmentLineItems_seq].
        rewrite autoincrement_rowid_next.
        - rewrite map_app, Hids, Hseq, rowids_from_snoc. cbn [map LineItemID].
          split; [do 2 f_equal|]; lia.
        - lia.
        - rewrite Hids, Hseq. intros x Hx. apply rowids_from_bound in Hx.
          lia. }
      destruct (IH _ _ Hids' Hseq') as (H1 & H2).
      cbn [List.length]. rewrite Nat.add_succ_r. now split.
    + assert (store_line_item d r = d) as ->
        by (unfold store_line_item, insert_line_item; now rewrite Ez).
      now apply IH.
Qed.

Lemma rowids_from_sorted (k : Z) (n : nat) :
  StronglySorted Z.le (rowids_from k n).
Proof.
  revert k. induction n as [|n IH]; intros k; cbn [rowids_from];
    constructor; [apply IH|].
  apply Forall_forall. intros x Hx.
  assert (k + 1 <= x); [|lia].
  clear IH. revert k Hx. induction n as [|n IH]; intros k;
    cbn [rowids_from In]; [tauto|].
  intros [<-|H]; [lia|]. apply IH in H. lia.
Qed.

(** After a load that ran to completion the LineItemIDs increase in the
    order of insertion. *)
Lemma main_line_items_sorted (file : option db)
    (df0 : list row0) (df1 : list row1) (df2 : list row2) :
  ended (main file df0 df1 df2) = Return tt ->
  StronglySorted Z.le
    (map LineItemID (ShipmentLineItems (file_after (main file df0 df1 df2)))).
Proof.
  intros Hend.
  rewrite (main_store file df0 df1 df2 Hend). cbv zeta.
  match goal with |- context [fold_left store_shipment ?l ?d1] =>
    destruct (fold_store_shipment_frame l d1) as (_ & _ & _ & Hi & Hq);
    set (d2 := fold_left store_shipment l d1) in * end.
  cbn [ShipmentLineItems ShipmentLineItems_seq] in Hi, Hq.
  destruct (fold_store_line_item_ids df1 d2 0) as (-> & _).
  - now rewrite Hi.
  - now rewrite Hq.
  - apply rowids_from_sorted.
Qed.

(** X8.  For a table B whose shipment_identifier column is an integer
    column: after a load that ran to completion, the LineItemIDs are 1, 2,
    ... in file order, one for each table-B row whose shipment identifier
    is within the signed 64-bit range: an iteration that fails and is
    rolled back takes no LineItemID, and the AUTOINCREMENT counter is the
    number of line items. *)
Theorem line_item_ids_consecutive (file : option db)
    (df0 : list row0) (df1 : list row1) (df2 : list row2)
    (Hcol : integer_column (map shipment_identifier1 df1))
    (Hend : ended (main file df0 df1 df2) = Return tt) :
  let d := file_after (main file df0 df1 df2) in
  let n := List.length (filter storable1 df1) in
  map LineItemID (ShipmentLineItems d) = rowids_from 1 n /\
  ShipmentLineItems_seq d = Z.of_nat n.
Proof.
  cbv zeta. rewrite (main_store file df0 df1 df2 Hend). cbv zeta.
  match goal with |- context [fold_left store_shipment ?l ?d1] =>
    destruct (fold_store_shipment_frame l d1) as (_ & _ & _ & Hi & Hq);
    set (d2 := fold_left store_shipment l d1) in * end.
  cbn [ShipmentLineItems ShipmentLineItems_seq] in Hi, Hq.
  apply (fold_store_line_item_ids df1 d2 0).
  - now rewrite Hi.
  - now rewrite Hq.
Qed.

(** ** Table scans *)

Lemma insert_on_In {A} (key : A -> Z) (x y : A) (l : list A) :
  In y (insert_on key x l) <-> x = y \/ In y l.
Proof.
  induction l as [|z l IH]; simpl; [tauto|].
  destruct (key x <=? key z); simpl; [tauto|]. rewrite IH. tauto.
Qed.

Lemma sort_on_In {A} (key : A -> Z) (l : list A) (y : A) :
  In y (sort_on key l) <-> In y l.
Proof.
  induction l as [|x l IH]; simpl; [tauto|].
  rewrite insert_on_In, IH. tauto.
Qed.

Lemma insert_on_map {A B} (f : A -> B) (key : B -> Z) (x : A) (l : list A) :
  insert_on key (f x) (map f l) =
  map f (insert_on (fun a => key (f a)) x l).
Proof.
  induction l as [|y l IH]; simpl; [reflexivity|].
  destruct (key (f x) <=? key (f y)); simpl; [reflexivity|].
  now rewrite IH.
Qed.

(** A scan of rows made from other rows, in the order of their keys. *)
Lemma sort_on_map {A B} (f : A -> B) (key : B -> Z) (l : list A) :
  sort_on key (map f l) = map f (sort_on (fun a => key (f a)) l).
Proof.
  induction l as [|x l IH]; simpl; [reflexivity|].
  now rewrite IH, insert_on_map.
Qed.

(** A table whose rows were inserted with increasing keys is scanned in the
    order of insertion. *)
Lemma sort_on_sorted {A} (key : A -> Z) (l : list A) :
  StronglySorted Z.le (map key l) -> sort_on key l = l.
Proof.
  induction l as [|x l IH]; simpl; [reflexivity|].
  intros H. apply StronglySorted_inv in H as [Hl Hx].
  rewrite (IH Hl). destruct l as [|y l]; [reflexivity|].
  simpl. apply Forall_inv in Hx.
  destruct (Z.leb_spec (key x) (key y)); [reflexivity | lia].
Qed.

Lemma enumerate_sorted (k : Z) (l : list string) :
  StronglySorted Z.le (map fst (enumerate k l)).
Proof.
  revert k. induction l as [|n l IH]; intros k; cbn [enumerate map fst];
    constructor; [apply IH|].
  apply Forall_forall. intros x Hx. apply enumerate_ids in Hx. lia.
Qed.

Lemma select_all_table_of (l : list string) :
  select_all (table_of l) = et_rows (table_of l).
Proof. apply sort_on_sorted. apply enumerate_sorted. Qed.

(** After a load that ran to completion a scan of an entity table, or of
    ShipmentLineItems, returns the rows in the order of their insertion. *)
Lemma main_scans (file : option db)
    (df0 : list row0) (df1 : list row1) (df2 : list row2) :
  ended (main file df0 df1 df2) = Return tt ->
  let d := file_after (main file df0 df1 df2) in
  select_all (Products d) = et_rows (Products d) /\
  select_all (Locations d) = et_rows (Locations d) /\
  select_all (Drivers d) = et_rows (Drivers d) /\
  sort_on LineItemID (ShipmentLineItems d) = ShipmentLineItems d.
Proof.
  intros Hend. cbv zeta.
  split; [|split; [|split]].
  4: { apply sort_on_sorted. now apply main_line_items_sorted. }
  all: rewrite main_store by assumption; cbv zeta;
    match goal with |- context [fold_left store_line_item ?l ?d2] =>
      destruct (fold_store_line_item_frame l d2) as (Ep & El & Ed & _);
      rewrite ?Ep, ?El, ?Ed; clear Ep El Ed end;
    match goal with |- context [fold_left store_shipment ?l ?d1] =>
      destruct (fold_store_shipment_frame l d1) as (Ep & El & Ed & _);
      rewrite ?Ep, ?El, ?Ed end;
    apply select_all_table_of.
Qed.

(** ** The verification printout *)

Lemma filter_key_unique (rows : list (Z * string)) (i : Z) (n : string) :
  NoDup (map fst rows) -> In (i, n) rows ->
  filter (fun r => fst r =? i) rows = [(i, n)].
Proof.
  induction rows as [|[j m] rows IH]; cbn [map fst filter In]; [tauto|].
  intros Hnd Hin. apply NoDup_cons_iff in Hnd as [Hj Hnd].
  destruct Hin as [[= -> ->]|Hin].
  - rewrite Z.eqb_refl. f_equal.
    clear IH Hnd. induction rows as [|[j m] rows IH]; [reflexivity|].
    cbn [filter fst]. destruct (Z.eqb_spec j i) as [->|_].
    + exfalso. apply Hj. now left.
    + apply IH. intros H. apply Hj. now right.
  - destruct (Z.eqb_spec j i) as [->|_]; [|now apply IH].
    exfalso. apply Hj. apply in_map_iff. now exists (i, n).
Qed.

(** From a name to its identifier and back. *)
Lemma names_of_lookup_cell (t : entity_table) (c : option string) :
  NoDup (map fst (et_rows t)) -> known t c ->
  names_of (lookup_cell t c) t = [cell_text c].
Proof.
  intros Hnd K. apply known_lookup_cell in K as (n & -> & Hl).
  apply lookup_In in Hl. unfold names_of.
  now rewrite (filter_key_unique _ _ n Hnd Hl).
Qed.

(** X9.  For a table C whose shipment_identifier column is an integer
    column: after a load that ran to completion, the join that the
    verification prints for Shipments has, for each row of the deduplicated
    table C whose identifier is within the signed 64-bit range, in the
    order of the identifiers, the shipment identifier with the origin,
    destination and driver names of that row: the identifiers stored in
    Shipments lead back to the names they were resolved from. *)
Theorem shipments_view_after_load (file : option db)
    (df0 : list row0) (df1 : list row1) (df2 : list row2)
    (Hcol : integer_column (map shipment_identifier2 df2))
    (Hend : ended (main file df0 df1 df2) = Return tt) :
  select_shipments_joined (file_after (main file df0 df1 df2)) =
  map shipment_view
    (sort_on shipment_identifier2
       (filter storable2
          (drop_duplicates shipment_identifier2 Z.eqb df2))).
Proof.
  destruct (main_shipments file df0 df1 df2 Hend) as ((_ & Kl) & Hs).
  destruct (main_keys_unique file df0 df1 df2) as (_ & Ul & Ud & _).
  unfold select_shipments_joined. rewrite Hs, sort_on_map. clear Hs.
  set (d := file_after (main file df0 df1 df2)) in *.
  change (fun a : row2 =>
            ShipmentID (row_shipment (Locations d) (Drivers d) a))
    with shipment_identifier2.
  assert (forall r,
            In r (sort_on shipment_identifier2
                    (filter storable2
                       (drop_duplicates shipment_identifier2 Z.eqb df2)))
            -> In r df2) as Hsub.
  { intros r Hr. apply sort_on_In in Hr. apply filter_In in Hr as [Hr _].
    now apply drop_duplicates_In in Hr. }
  revert Hsub.
  generalize (sort_on shipment_identifier2
                (filter storable2
                   (drop_duplicates shipment_identifier2 Z.eqb df2))).
  intros rows. induction rows as [|r rows IH]; intros Hsub; [reflexivity|].
  cbn [map flat_map]. rewrite IH by (intros r' Hr'; apply Hsub; now right).
  destruct (Kl r (Hsub r (or_introl eq_refl))) as (Ka & Kb & Kc).
  cbn [row_shipment OriginLocationID DestinationLocationID DriverID
       ShipmentID].
  rewrite (names_of_lookup_cell _ _ Ul Ka), (names_of_lookup_cell _ _ Ul Kb),
    (names_of_lookup_cell _ _ Ud Kc).
  reflexivity.
Qed.

(** X10.  For a table B whose shipment_identifier column is an integer
    column: after a load that ran to completion, the join that the
    verification prints for ShipmentLineItems has the first ten table-B
    rows whose shipment identifier is within the signed 64-bit range, in
    file order, each with its identifier, its product name, quantity 1 and
    its on-time status. *)
Theorem line_items_view_after_load (file : option db)
    (df0 : list row0) (df1 : list row1) (df2 : list row2)
    (Hcol : integer_column (map shipment_identifier1 df1))
    (Hend : ended (main file df0 df1 df2) = Return tt) :
  select_line_items_joined 10 (file_after (main file df0 df1 df2)) =
  firstn 10 (map line_item_view (filter storable1 df1)).
Proof.
  destruct (main_line_items file df0 df1 df2 Hend) as (Hf & _).
  destruct (main_keys_unique file df0 df1 df2) as (Up & _).
  destruct (main_scans file df0 df1 df2 Hend) as (_ & _ & _ & Hscan).
  unfold select_line_items_joined. rewrite Hscan. clear Hscan. f_equal.
  induction Hf as [|r li rows items (Hz & (p & Hp & Hl) & Hq & Hs) _ IH];
    [reflexivity|].
  cbn [map flat_map]. rewrite IH.
  apply lookup_In in Hl. unfold names_of.
  rewrite (filter_key_unique _ _ p Up Hl).
  unfold line_item_view. rewrite Hz, Hp, Hq, Hs. reflexivity.
Qed.

(** X11.  For tables B and C whose shipment_identifier columns are integer
    columns, what a run of [main] that loads to completion prints, line by
    line: the removal notice when a file was there, the two lines of
    [setup_database], the headers of the two steps, for every row of the
    deduplicated table C whose shipment identifier is outside the signed
    64-bit range the line of the generic handler with the OverflowError,
    for every row of table B in file order the quantity warning, followed
    by the line of the generic handler when its shipment identifier is
    outside that range, the two closing lines, and the five tables of the
    verification, the three entity tables in the order of insertion. *)
Theorem main_prints (file : option db)
    (df0 : list row0) (df1 : list row1) (df2 : list row2)
    (Hcol1 : integer_column (map shipment_identifier1 df1))
    (Hcol2 : integer_column (map shipment_identifier2 df2))
    (Hend : ended (main file df0 df1 df2) = Return tt) :
  let d := file_after (main file df0 df1 df2) in
  printed (main file df0 df1 df2) =
  main_prelude file ++
  [PopulatingEntities; FinishedEntities; PopulatingShipments] ++
  flat_map (shipment_events SPREADSHEET2_PATH)
    (drop_duplicates shipment_identifier2 Z.eqb df2) ++
  flat_map (line_item_events SPREADSHEET1_PATH) df1 ++
  [FinishedShipments; PopulationComplete; VerificationHeader;
   PrintedEntities "Products" (et_rows (Products d));
   PrintedEntities "Locations" (et_rows (Locations d));
   PrintedEntities "Drivers" (et_rows (Drivers d));
   PrintedShipments (select_shipments_joined d);
   PrintedLineItems (select_line_items_joined 10 d)].
Proof.
  cbv zeta.
  destruct (main_scans file df0 df1 df2 Hend) as (<- & <- & <- & _).
  revert Hend.
  assert (main file df0 df1 df2 =
          let o := populate_database (Some empty_db) (main_prelude file)
                     SPREADSHEET1_PATH SPREADSHEET2_PATH df0 df1 df2 in
          match ended o with
          | Return _ => verification (Some (file_after o)) (printed o)
          | Raise _ => o
          end) as ->.
  { destruct file; reflexivity. }
  cbv zeta. unfold populate_database.
  pose proof (populate_database_conn_returns SPREADSHEET1_PATH
                SPREADSHEET2_PATH df0 df1 df2
                (connect (Some empty_db) (main_prelude file)) eq_refl) as H.
  destruct (populate_entities df0 df1 df2
              (connect (Some empty_db) (main_prelude file)))
    as [[[]|e] w1].
  - cbv zeta in H. destruct H as (_ & _ & _ & _ & _ & ->).
    cbn [ended file_after printed]. intros _.
    unfold verification, verification_conn, bind, query, print, connect, close.
    cbn [ended file_after printed stdout current committed foreign_keys
         fst snd].
    repeat rewrite <- app_assoc. reflexivity.
  - rewrite H. cbn [ended]. discriminate.
Qed.

(** ** A second [populate_database] on the file of a load *)

Lemma present_names_In (l : list (option string)) (n : string) :
  In (Some n) l -> In n (present_names l).
Proof.
  induction l as [|[m|] l IH]; cbn [present_names In]; [tauto| |].
  - intros [[= ->]|H]; [now left | right; now apply IH].
  - intros [H|H]; [discriminate | now apply IH].
Qed.

(** After a load that ran to completion, every name cell of the three
    tables has its row. *)
Lemma main_cells_known (file : option db)
    (df0 : list row0) (df1 : list row1) (df2 : list row2) :
  ended (main file df0 df1 df2) = Return tt ->
  let d := file_after (main file df0 df1 df2) in
  (forall c, In c (product_cells df0 df1) -> known (Products d) c) /\
  (forall c, In c (location_cells df0 df2) -> known (Locations d) c) /\
  (forall c, In c (driver_cells df0 df2) -> known (Drivers d) c).
Proof.
  destruct (main_load_of file df0 df1 df2) as [-> ->].
  unfold load_of.
  destruct (entities_of_cases df0 df1 df2 empty_db)
    as [(Np & ->)|[(Hp & Nl & ->)|[(Hp & Hl & Nd & ->)|(Hp & Hl & Hd & ->)]]];
    cbn [fst snd]; try discriminate.
  intros _. cbv zeta.
  match goal with |- context [fold_left store_line_item df1 ?d2] =>
    destruct (fold_store_line_item_frame df1 d2) as (-> & -> & -> & _) end.
  match goal with |- context [fold_left store_shipment ?l ?d1] =>
    destruct (fold_store_shipment_frame l d1) as (-> & -> & -> & _) end.
  cbn [Products Locations Drivers set_Products set_Locations set_Drivers].
  repeat split; intros c Hc;
    apply resolve_names_known;
    try (apply resolve_names_returns; now apply unique_present);
    now apply unique_In.
Qed.

(** Rows whose identifier the driver refuses or Shipments has already
    leave the store as it is. *)
Lemma fold_store_shipment_existing (rows : list row2) (d : db) :
  (forall r, In r rows ->
     storable2 r = true -> has_shipment (shipment_identifier2 r) d = true) ->
  fold_left store_shipment rows d = d.
Proof.
  induction rows as [|r rows IH]; intros H; cbn [fold_left]; [reflexivity|].
  assert (store_shipment d r = d) as ->.
  { unfold store_shipment, insert_or_ignore_shipment.
    pose proof (H r (or_introl eq_refl)) as Hr. unfold storable2 in Hr.
    destruct (int64b (shipment_identifier2 r)); [|reflexivity].
    now rewrite (Hr eq_refl). }
  apply IH. intros r' Hr'. apply H. now right.
Qed.

Lemma entities_of_known (df0 : list row0) (df1 : list row1)
    (df2 : list row2) (d : db) :
  (forall c, In c (product_cells df0 df1) -> known (Products d) c) ->
  (forall c, In c (location_cells df0 df2) -> known (Locations d) c) ->
  (forall c, In c (driver_cells df0 df2) -> known (Drivers d) c) ->
  entities_of df0 df1 df2 d = (Return tt, d).
Proof.
  intros Kp Kl Kd. unfold entities_of.
  rewrite resolve_names_known_id.
  2: { intros c Hc. apply Kp.
       now apply (drop_duplicates_In (fun x => x)) in Hc. }
  cbv zeta. change (Locations (set_Products d (Products d)))
    with (Locations d).
  rewrite resolve_names_known_id.
  2: { intros c Hc. apply Kl.
       now apply (drop_duplicates_In (fun x => x)) in Hc. }
  change (Drivers (set_Locations (set_Products d (Products d)) (Locations d)))
    with (Drivers d).
  rewrite resolve_names_known_id.
  2: { intros c Hc. apply Kd.
       now apply (drop_duplicates_In (fun x => x)) in Hc. }
  now destruct d.
Qed.

(** X12.  For a table B whose shipment_identifier column is an integer
    column: a second [populate_database] with the same tables on the file
    that a completed load has left runs to completion and loads the line
    items again: the three entity tables and Shipments stay as they are,
    and ShipmentLineItems gets one more line item for every table-B row
    whose shipment identifier is within the signed 64-bit range.  This is
    what the removal of the file at the start of the main block
    prevents. *)
Theorem populate_database_again (file : option db) (out : list event)
    (s1_path s2_path : string)
    (df0 : list row0) (df1 : list row1) (df2 : list row2)
    (Hcol : integer_column (map shipment_identifier1 df1))
    (Hend : ended (main file df0 df1 df2) = Return tt) :
  let d := file_after (main file df0 df1 df2) in
  let o := populate_database (Some d) out s1_path s2_path df0 df1 df2 in
  ended o = Return tt /\
  Products (file_after o) = Products d /\
  Locations (file_after o) = Locations d /\
  Drivers (file_after o) = Drivers d /\
  Shipments (file_after o) = Shipments d /\
  exists new,
    ShipmentLineItems (file_after o) = ShipmentLineItems d ++ new /\
    Forall2 (line_item_of d) (filter storable1 df1) new.
Proof.
  cbv zeta.
  destruct (main_cells_known file df0 df1 df2 Hend) as (Kp & Kl & Kd).
  destruct (main_shipments file df0 df1 df2 Hend) as ((Kp1 & _) & Hs).
  set (d := file_after (main file df0 df1 df2)) in *.
  destruct (populate_database_load_of (Some d) out s1_path s2_path
              df0 df1 df2) as [-> ->].
  unfold load_of. rewrite (entities_of_known df0 df1 df2 d Kp Kl Kd).
  cbn [fst snd].
  rewrite fold_store_shipment_existing.
  2: { intros r Hr Hst.
       destruct (has_shipment (shipment_identifier2 r) d) eqn:E;
         [reflexivity|].
       exfalso. apply has_shipment_false in E. apply E.
       rewrite Hs, map_map. apply in_map_iff. exists r.
       split; [reflexivity|]. apply filter_In. now split. }
  destruct (fold_store_line_item_frame df1 d) as (-> & -> & -> & ->).
  destruct (fold_store_line_item_rows df1 d Kp1) as (new & -> & Hf & _).
  repeat split. now exists new.
Qed.

(** ** The further properties at concrete tables *)

Lemma primary_keys_stay_unique_scenario :
  keys_unique empty_db /\
  keys_unique
    (file_after (populate_database None [] SPREADSHEET1_PATH
                   SPREADSHEET2_PATH scenario_df0 repeating_df1
                   duplicated_df2)).
Proof.
  assert (keys_unique empty_db) as H by (repeat split; constructor).
  split; [exact H|].
  exact (proj1 (primary_keys_stay_unique None [] SPREADSHEET1_PATH
                  SPREADSHEET2_PATH scenario_df0 repeating_df1
                  duplicated_df2 H)).
Defined.

Lemma load_completes_iff_scenario :
  names_present scenario_df0 scenario_df1 scenario_df2 /\
  ended (main None scenario_df0 scenario_df1 scenario_df2) = Return tt.
Proof.
  assert (names_present scenario_df0 scenario_df1 scenario_df2) as H
    by (repeat constructor; discriminate).
  split; [exact H|].
  exact (proj2 (proj1 (load_completes_iff None scenario_df0 scenario_df1
                         scenario_df2)) H).
Defined.

Lemma entity_tables_after_load_duplicated :
  ended (main None scenario_df0 scenario_df1 duplicated_df2) = Return tt /\
  let d := file_after (main None scenario_df0 scenario_df1 duplicated_df2) in
  Products d =
    table_of (present_names
                (unique (product_cells scenario_df0 scenario_df1))) /\
  Locations d =
    table_of (present_names
                (unique (location_cells scenario_df0 duplicated_df2))) /\
  Drivers d =
    table_of (present_names
                (unique (driver_cells scenario_df0 duplicated_df2))).
Proof.
  assert (ended (main None scenario_df0 scenario_df1 duplicated_df2)
            = Return tt) as Hend by reflexivity.
  split; [exact Hend|].
  exact (entity_tables_after_load None scenario_df0 scenario_df1
           duplicated_df2 Hend).
Defined.

Lemma failed_load_keeps_products :
  Forall (fun c : option string => c <> None)
    (product_cells scenario_df0 scenario_df1) /\
  ~ Forall (fun c : option string => c <> None)
      (location_cells scenario_df0 unlocated_df2) /\
  file_after (main None scenario_df0 scenario_df1 unlocated_df2) =
  set_Products empty_db
    (table_of (present_names
                 (unique (product_cells scenario_df0 scenario_df1)))).
Proof.
  assert (Forall (fun c : option string => c <> None)
            (product_cells scenario_df0 scenario_df1)) as Hp
    by (repeat constructor; discriminate).
  assert (~ Forall (fun c : option string => c <> None)
              (location_cells scenario_df0 unlocated_df2)) as Nl.
  { intros H. apply (proj1 (Forall_forall _ _) H None); [|reflexivity].
    simpl. tauto. }
  split; [exact Hp|]. split; [exact Nl|].
  exact (proj1 (proj2 (failed_load_keeps_committed_phases None scenario_df0
                         scenario_df1 unlocated_df2)) Hp Nl).
Defined.

Lemma references_exist_after_load_duplicated :
  ended (main None scenario_df0 repeating_df1 duplicated_df2) = Return tt /\
  references_exist
    (file_after (main None scenario_df0 repeating_df1 duplicated_df2)).
Proof.
  assert (ended (main None scenario_df0 repeating_df1 duplicated_df2)
            = Return tt) as Hend by reflexivity.
  split; [exact Hend|].
  exact (references_exist_after_load None scenario_df0 repeating_df1
           duplicated_df2 Hend).
Defined.

Lemma repeating_df1_integer_column :
  integer_column (map shipment_identifier1 repeating_df1).
Proof.
  right. repeat (apply Forall_cons; [simpl; lia|]). apply Forall_nil.
Qed.

Lemma duplicated_df2_integer_column :
  integer_column (map shipment_identifier2 duplicated_df2).
Proof.
  left. repeat (apply Forall_cons; [simpl; lia|]). apply Forall_nil.
Qed.

Lemma oversized_df2_integer_column :
  integer_column (map shipment_identifier2 oversized_df2).
Proof.
  right. repeat (apply Forall_cons; [simpl; lia|]). apply Forall_nil.
Qed.

Lemma line_item_ids_consecutive_repeating :
  integer_column (map shipment_identifier1 repeating_df1) /\
  ended (main None scenario_df0 repeating_df1 scenario_df2) = Return tt /\
  let d := file_after (main None scenario_df0 repeating_df1 scenario_df2) in
  let n := List.length (filter storable1 repeating_df1) in
  map LineItemID (ShipmentLineItems d) = rowids_from 1 n /\
  ShipmentLineItems_seq d = Z.of_nat n.
Proof.
  assert (ended (main None scenario_df0 repeating_df1 scenario_df2)
            = Return tt) as Hend by reflexivity.
  split; [exact repeating_df1_integer_column|]. split; [exact Hend|].
  exact (line_item_ids_consecutive None scenario_df0 repeating_df1
           scenario_df2 repeating_df1_integer_column Hend).
Defined.

(** Table C with the identifiers 100, 7, 100: the join has shipment 7
    before shipment 100. *)
Lemma shipments_view_after_load_duplicated :
  integer_column (map shipment_identifier2 duplicated_df2) /\
  ended (main None scenario_df0 scenario_df1 duplicated_df2) = Return tt /\
  select_shipments_joined
    (file_after (main None scenario_df0 scenario_df1 duplicated_df2)) =
  map shipment_view
    (sort_on shipment_identifier2
       (filter storable2
          (drop_duplicates shipment_identifier2 Z.eqb duplicated_df2))).
Proof.
  assert (ended (main None scenario_df0 scenario_df1 duplicated_df2)
            = Return tt) as Hend by reflexivity.
  split; [exact duplicated_df2_integer_column|]. split; [exact Hend|].
  exact (shipments_view_after_load None scenario_df0 scenario_df1
           duplicated_df2 duplicated_df2_integer_column Hend).
Defined.

Lemma line_items_view_after_load_repeating :
  integer_column (map shipment_identifier1 repeating_df1) /\
  ended (main None scenario_df0 repeating_df1 scenario_df2) = Return tt /\
  select_line_items_joined 10
    (file_after (main None scenario_df0 repeating_df1 scenario_df2)) =
  firstn 10 (map line_item_view (filter storable1 repeating_df1)).
Proof.
  assert (ended (main None scenario_df0 repeating_df1 scenario_df2)
            = Return tt) as Hend by reflexivity.
  split; [exact repeating_df1_integer_column|]. split; [exact Hend|].
  exact (line_items_view_after_load None scenario_df0 repeating_df1
           scenario_df2 repeating_df1_integer_column Hend).
Defined.

(** A run on tables B and C that each have a row with identifier 2^63. *)
Lemma main_prints_repeating :
  integer_column (map shipment_identifier1 repeating_df1) /\
  integer_column (map shipment_identifier2 oversized_df2) /\
  ended (main (Some empty_db) scenario_df0 repeating_df1 oversized_df2)
    = Return tt /\
  let d := file_after
             (main (Some empty_db) scenario_df0 repeating_df1 oversized_df2) in
  printed (main (Some empty_db) scenario_df0 repeating_df1 oversized_df2) =
  main_prelude (Some empty_db) ++
  [PopulatingEntities; FinishedEntities; PopulatingShipments] ++
  flat_map (shipment_events SPREADSHEET2_PATH)
    (drop_duplicates shipment_identifier2 Z.eqb oversized_df2) ++
  flat_map (line_item_events SPREADSHEET1_PATH) repeating_df1 ++
  [FinishedShipments; PopulationComplete; VerificationHeader;
   PrintedEntities "Products" (et_rows (Products d));
   PrintedEntities "Locations" (et_rows (Locations d));
   PrintedEntities "Drivers" (et_rows (Drivers d));
   PrintedShipments (select_shipments_joined d);
   PrintedLineItems (select_line_items_joined 10 d)].
Proof.
  assert (ended (main (Some empty_db) scenario_df0 repeating_df1
                   oversized_df2) = Return tt) as Hend by reflexivity.
  split; [exact repeating_df1_integer_column|].
  split; [exact oversized_df2_integer_column|]. split; [exact Hend|].
  exact (main_prints (Some empty_db) scenario_df0 repeating_df1
           oversized_df2 repeating_df1_integer_column
           oversized_df2_integer_column Hend).
Defined.

Lemma populate_database_again_repeating :
  integer_column (map shipment_identifier1 repeating_df1) /\
  ended (main None scenario_df0 repeating_df1 duplicated_df2) = Return tt /\
  let d := file_after (main None scenario_df0 repeating_df1 duplicated_df2) in
  let o := populate_database (Some d) [] SPREADSHEET1_PATH SPREADSHEET2_PATH
             scenario_df0 repeating_df1 duplicated_df2 in
  ended o = Return tt /\
  Products (file_after o) = Products d /\
  Locations (file_after o) = Locations d /\
  Drivers (file_after o) = Drivers d /\
  Shipments (file_after o) = Shipments d /\
  exists new,
    ShipmentLineItems (file_after o) = ShipmentLineItems d ++ new /\
    Forall2 (line_item_of d) (filter storable1 repeating_df1) new.
Proof.
  assert (ended (main None scenario_df0 repeating_df1 duplicated_df2)
            = Return tt) as Hend by reflexivity.
  split; [exact repeating_df1_integer_column|]. split; [exact Hend|].
  exact (populate_database_again None [] SPREADSHEET1_PATH SPREADSHEET2_PATH
           scenario_df0 repeating_df1 duplicated_df2
           repeating_df1_integer_column Hend).
Defined.

Lemma resolver_round_trip_fresh :
  exists i w1,
    get_or_insert_product (Some "Widget"%string) (connect None [])
      = (Return i, w1) /\
    lookup (Products (current w1)) "Widget" = Some i /\
    (forall m j, lookup (Products (current (connect None []))) m = Some j ->
                 lookup (Products (current w1)) m = Some j) /\
    (lookup (Products (current (connect None []))) "Widget" = None ->
     has_id i (Products (current (connect None []))) = false) /\
    committed w1 = committed (connect None []) /\
    stdout w1 = stdout (connect None []).
Proof.
  exact (proj1 (resolver_round_trip (connect None []) "Widget")).
Defined.
